(** * central_etl: the "Ingresos Detallado" pipeline

    A shallow embedding of [app/etl_central/assets/ingresos_detallado.py]:
    the extractor, the transform of the raw sheet, the surrogate-key
    generator and the two loaders that talk to PostgreSQL directly
    ([single_load], [bulk_load]).

    Conventions.
    - A Python [str] is a [string]; a character is its code point, so the
      development covers text in the range U+0000..U+00FF, the range in
      which CPython stores one byte per character.
    - A raised exception is a value of [exn]; a function that can raise
      returns [result].
    - Python integers are [Z]; machine words are [Z] with the wrap-around
      written out. *)

From Stdlib Require Import ZArith List String Ascii Bool Lia.
From Stdlib Require Import DecimalString DecimalZ.
Import ListNotations.

Local Open Scope list_scope.
Local Open Scope string_scope.
Local Open Scope Z_scope.

Set Implicit Arguments.

(** ** Exceptions and results *)

Inductive exn : Type :=
| ValueError (msg : string)
| KeyError (key : string)
| IndexError (msg : string)
| RuntimeError (msg : string)
| OtherError (msg : string).

Inductive result (A : Type) : Type :=
| Ok (a : A)
| Raise (e : exn).

Arguments Ok {A} a.
Arguments Raise {A} e.

Definition bind {A B : Type} (r : result A) (f : A -> result B) : result B :=
  match r with
  | Ok a => f a
  | Raise e => Raise e
  end.

Declare Scope py_scope.
Delimit Scope py_scope with py.
Notation "x <- r ;; k" := (bind r (fun x => k))
  (at level 61, r at next level, right associativity) : py_scope.
Notation "' p <- r ;; k" := (bind r (fun x => let p := x in k))
  (at level 61, p pattern, r at next level, right associativity) : py_scope.

Definition exn_text (e : exn) : string :=
  match e with
  | ValueError m => m
  | KeyError k => "'" ++ k ++ "'"
  | IndexError m => m
  | RuntimeError m => m
  | OtherError m => m
  end.

(** ** Strings *)

Module PyStr.

Definition code (c : ascii) : Z := Z.of_N (N_of_ascii c).

Definition in_range (lo hi : Z) (c : ascii) : bool :=
  (lo <=? code c) && (code c <=? hi).

(** [\d] of [re] on [str] patterns: the decimal digits. Below U+0100 these
    are 0..9 only. *)
Definition is_digit (c : ascii) : bool := in_range 48 57 c.

Definition is_upper_az (c : ascii) : bool := in_range 65 90 c.
Definition is_lower_az (c : ascii) : bool := in_range 97 122 c.

(** [\w] of [re] on [str] patterns: alphanumeric characters and the
    underscore. Below U+0100 the alphanumerics outside ASCII are
    U+00AA, U+00B2, U+00B3, U+00B5, U+00B9, U+00BA, U+00BC..U+00BE,
    U+00C0..U+00D6, U+00D8..U+00F6 and U+00F8..U+00FF. *)
Definition is_word (c : ascii) : bool :=
  is_digit c || is_upper_az c || is_lower_az c || (code c =? 95)
  || (code c =? 170) || in_range 178 179 c || (code c =? 181)
  || in_range 185 186 c || in_range 188 190 c
  || in_range 192 214 c || in_range 216 246 c || in_range 248 255 c.

(** [str.isspace] for one character, as [str.strip()] uses it. *)
Definition is_space (c : ascii) : bool :=
  in_range 9 13 c || in_range 28 32 c || (code c =? 133) || (code c =? 160).

(** [str.lower()] for one character: A..Z and U+00C0..U+00DE except
    U+00D7 move up by 32. *)
Definition lower_char (c : ascii) : ascii :=
  if is_upper_az c || (in_range 192 222 c && negb (code c =? 215))
  then ascii_of_N (N_of_ascii c + 32)
  else c.

Fixpoint lower (s : string) : string :=
  match s with
  | EmptyString => EmptyString
  | String c s' => String (lower_char c) (lower s')
  end.

Fixpoint lstrip (s : string) : string :=
  match s with
  | EmptyString => EmptyString
  | String c s' => if is_space c then lstrip s' else s
  end.

Fixpoint rev_str (acc s : string) : string :=
  match s with
  | EmptyString => acc
  | String c s' => rev_str (String c acc) s'
  end.

Definition rstrip (s : string) : string :=
  rev_str EmptyString (lstrip (rev_str EmptyString s)).

(** [s.strip()] *)
Definition strip (s : string) : string := rstrip (lstrip s).

(** [sep.join(parts)] *)
Fixpoint join (sep : string) (parts : list string) : string :=
  match parts with
  | [] => EmptyString
  | [p] => p
  | p :: rest => p ++ sep ++ join sep rest
  end.

(** [str(n)] for an integer. *)
Definition str_int (n : Z) : string := NilZero.string_of_int (Z.to_int n).

Definition digit_val (c : ascii) : Z := code c - 48.

(** [int(s)] for a string of decimal digits. *)
Definition int_digits (s : string) : Z :=
  fold_left (fun acc c => 10 * acc + digit_val c) (list_ascii_of_string s) 0.

Fixpoint repeat_char (c : ascii) (n : nat) : string :=
  match n with
  | O => EmptyString
  | S n' => String c (repeat_char c n')
  end.

(** [f"{n:0wd}"] for a non-negative integer: zeros on the left up to
    width [w], never truncating. *)
Definition fmt_0d (w : nat) (n : Z) : string :=
  let s := str_int n in
  repeat_char "0"%char (w - String.length s) ++ s.

Fixpoint all_chars (p : ascii -> bool) (s : string) : bool :=
  match s with
  | EmptyString => true
  | String c s' => p c && all_chars p s'
  end.

End PyStr.

(** ** Cells of a data frame *)

(** A cell holds a Python object. Text, integers and the missing value
    (NaN) are modelled as such; a value of any other type (a float, a
    timestamp) is carried by the text [str()] gives for it. *)
Inductive cell : Type :=
| CStr (s : string)
| CInt (n : Z)
| CNaN
| CObj (repr : string).

(** [str(x)], which is what [astype(str)] applies cell by cell (pandas 1
    and 2: the missing value becomes the text "nan"). *)
Definition str_cell (c : cell) : string :=
  match c with
  | CStr s => s
  | CInt n => PyStr.str_int n
  | CNaN => "nan"
  | CObj r => r
  end.

(** ** The built-in [hash] on [str] *)

Module PyHash.

Definition u64 (x : Z) : Z := Z.land x (Z.ones 64).

Definition rotl (x b : Z) : Z :=
  u64 (Z.lor (Z.shiftl x b) (Z.shiftr x (64 - b))).

Definition quad : Type := (Z * Z * Z * Z)%type.

(** [HALF_ROUND(a,b,c,d,s,t)] of [pyhash.c]. *)
Definition half_round (a b c d s t : Z) : quad :=
  let a := u64 (a + b) in
  let c := u64 (c + d) in
  let b := Z.lxor (rotl b s) a in
  let d := Z.lxor (rotl d t) c in
  let a := rotl a 32 in
  (a, b, c, d).

(** [SINGLE_ROUND(v0,v1,v2,v3)]: two half rounds, the second on
    (v2,v1,v0,v3). *)
Definition single_round (v : quad) : quad :=
  let '(v0, v1, v2, v3) := v in
  let '(v0, v1, v2, v3) := half_round v0 v1 v2 v3 13 16 in
  let '(v2, v1, v0, v3) := half_round v2 v1 v0 v3 17 21 in
  (v0, v1, v2, v3).

(** A little-endian word from at most eight bytes. *)
Definition le_word (bs : list Z) : Z :=
  fold_right (fun b acc => b + 256 * acc) 0 bs.

Definition absorb (v : quad) (mi : Z) : quad :=
  let '(v0, v1, v2, v3) := v in
  let '(v0, v1, v2, v3) := single_round (v0, v1, v2, Z.lxor v3 mi) in
  (Z.lxor v0 mi, v1, v2, v3).

(** The [while (src_sz >= 8)] loop, returning the state and the tail of
    fewer than eight bytes. *)
Fixpoint blocks (v : quad) (bs : list Z) : quad * list Z :=
  match bs with
  | b0 :: b1 :: b2 :: b3 :: b4 :: b5 :: b6 :: b7 :: rest =>
      blocks (absorb v (le_word [b0; b1; b2; b3; b4; b5; b6; b7])) rest
  | _ => (v, bs)
  end.

(** [siphash13(k0, k1, src, src_sz)]. *)
Definition siphash13 (k0 k1 : Z) (src : list Z) : Z :=
  let b := u64 (Z.shiftl (Z.of_nat (List.length src)) 56) in
  let v := (Z.lxor k0 0x736f6d6570736575, Z.lxor k1 0x646f72616e646f6d,
            Z.lxor k0 0x6c7967656e657261, Z.lxor k1 0x7465646279746573) in
  let '(v, tail) := blocks v src in
  let b := Z.lor b (le_word tail) in
  let '(v0, v1, v2, v3) := absorb v b in
  let v := single_round (v0, v1, Z.lxor v2 0xff, v3) in
  let v := single_round v in
  let '(v0, v1, v2, v3) := single_round v in
  Z.lxor (Z.lxor v0 v1) (Z.lxor v2 v3).

(** The per-process hash secret ([_Py_HashSecret.siphash]). *)
Record secret : Type := { k0 : Z; k1 : Z }.

(** [lcg_urandom(x0, buffer, size)]: the bytes a non-zero PYTHONHASHSEED
    expands to. *)
Fixpoint lcg_urandom (x : Z) (size : nat) : list Z :=
  match size with
  | O => []
  | S n =>
      let x := (x * 214013 + 2531011) mod 2 ^ 32 in
      Z.land (Z.shiftr x 16) 255 :: lcg_urandom x n
  end.

(** The secret of a process started with PYTHONHASHSEED=[seed]; seed 0
    switches the randomisation off (an all-zero secret). Without the
    variable the secret is drawn from the operating system's random
    source, so it can be any value. *)
Definition secret_of_seed (seed : Z) : secret :=
  if seed =? 0 then {| k0 := 0; k1 := 0 |}
  else
    let buf := lcg_urandom seed 16 in
    {| k0 := le_word (firstn 8 buf); k1 := le_word (skipn 8 buf) |}.

Definition bytes_of (s : string) : list Z :=
  map PyStr.code (list_ascii_of_string s).

(** The cast of the 64-bit word to [Py_hash_t]. *)
Definition to_signed (x : Z) : Z := if x <? 2 ^ 63 then x else x - 2 ^ 64.

(** [hash(s)] for a [str]: [_Py_HashBytes] over the character data. The
    empty string hashes to 0, and -1 is reserved for errors. *)
Definition hash (k : secret) (s : string) : Z :=
  match s with
  | EmptyString => 0
  | _ =>
      let x := to_signed (siphash13 (k0 k) (k1 k) (bytes_of s)) in
      if x =? -1 then -2 else x
  end.

End PyHash.

(** ** Regular expressions, as the [re] module runs them *)

Module Re.

Inductive cclass : Type :=
| Lit (c : ascii)            (* a literal character *)
| Digit                      (* \d *)
| Word                       (* \w *)
| Range (lo hi : ascii).     (* [lo-hi] *)

Definition in_class (k : cclass) (c : ascii) : bool :=
  match k with
  | Lit a => Ascii.eqb a c
  | Digit => PyStr.is_digit c
  | Word => PyStr.is_word c
  | Range lo hi => PyStr.in_range (PyStr.code lo) (PyStr.code hi) c
  end.

Inductive regex : Type :=
| Eps
| Bol                                             (* ^ *)
| One (k : cclass)
| Rep (k : cclass) (lo : nat) (hi : option nat)   (* greedy k{lo,hi} *)
| Seq (r1 r2 : regex)
| Group (n : nat) (r : regex).                    (* n-th capturing group *)

Fixpoint lit (s : string) : regex :=
  match s with
  | EmptyString => Eps
  | String c s' => Seq (One (Lit c)) (lit s')
  end.

Fixpoint seqs (rs : list regex) : regex :=
  match rs with
  | [] => Eps
  | r :: rs' => Seq r (seqs rs')
  end.

(** The state of a match attempt: the offset in the subject, the text
    still to read, and the groups captured so far. *)
Record mstate : Type := { pos : nat; rest : string; groups : list (nat * string) }.

Definition has_room (hi : option nat) : bool :=
  match hi with
  | Some O => false
  | _ => true
  end.

(** A greedy repetition: take one more character while allowed, and fall
    back to stopping here when the rest of the pattern fails further on. *)
Fixpoint rep {A : Type} (k : cclass) (lo : nat) (hi : option nat) (p : nat)
    (s : string) (cont : nat -> string -> option A) : option A :=
  let stop := match lo with O => cont p s | S _ => None end in
  match s with
  | String c s' =>
      if in_class k c && has_room hi then
        match rep k (Nat.pred lo) (option_map Nat.pred hi) (S p) s' cont with
        | Some r => Some r
        | None => stop
        end
      else stop
  | EmptyString => stop
  end.

(** Backtracking matcher in continuation-passing style. *)
Fixpoint run {A : Type} (r : regex) (st : mstate) (cont : mstate -> option A)
    : option A :=
  match r with
  | Eps => cont st
  | Bol => match pos st with O => cont st | S _ => None end
  | One k =>
      match rest st with
      | String c s' =>
          if in_class k c
          then cont {| pos := S (pos st); rest := s'; groups := groups st |}
          else None
      | EmptyString => None
      end
  | Rep k lo hi =>
      rep k lo hi (pos st) (rest st)
        (fun p s => cont {| pos := p; rest := s; groups := groups st |})
  | Seq r1 r2 => run r1 st (fun st' => run r2 st' cont)
  | Group n r' =>
      run r' st (fun st' =>
        cont {| pos := pos st'; rest := rest st';
                groups := (n, substring 0 (pos st' - pos st) (rest st)) :: groups st' |})
  end.

(** A match object, reduced to its groups. *)
Definition matched : Type := list (nat * string).

(** [m.group(n)] *)
Fixpoint group (m : matched) (n : nat) : string :=
  match m with
  | [] => EmptyString
  | (i, s) :: m' => if Nat.eqb i n then s else group m' n
  end.

Definition match_at (r : regex) (p : nat) (s : string) : option matched :=
  run r {| pos := p; rest := s; groups := [] |} (fun st => Some (groups st)).

(** [re.search(r, s)]: the match at the leftmost offset that has one. *)
Fixpoint search_from (r : regex) (p : nat) (s : string) : option matched :=
  match match_at r p s with
  | Some m => Some m
  | None =>
      match s with
      | String _ s' => search_from r (S p) s'
      | EmptyString => None
      end
  end.

Definition search (r : regex) (s : string) : option matched := search_from r 0 s.

(** [n] respects the upper bound of a repetition. *)
Definition within (n : nat) (hi : option nat) : Prop :=
  match hi with
  | Some h => (n <= h)%nat
  | None => True
  end.

(** The declarative reading of a pattern: from [st], reading on to [st']. *)
Fixpoint sem (r : regex) (st st' : mstate) : Prop :=
  match r with
  | Eps => st' = st
  | Bol => pos st = 0%nat /\ st' = st
  | One k =>
      exists c, in_class k c = true /\ rest st = String c (rest st')
                /\ pos st' = S (pos st) /\ groups st' = groups st
  | Rep k lo hi =>
      exists pre, rest st = pre ++ rest st'
                  /\ PyStr.all_chars (in_class k) pre = true
                  /\ (lo <= String.length pre)%nat /\ within (String.length pre) hi
                  /\ pos st' = (pos st + String.length pre)%nat
                  /\ groups st' = groups st
  | Seq r1 r2 => exists mid, sem r1 st mid /\ sem r2 mid st'
  | Group n r' =>
      exists st1, sem r' st st1 /\ pos st' = pos st1 /\ rest st' = rest st1
                  /\ groups st' = (n, substring 0 (pos st1 - pos st) (rest st)) :: groups st1
  end.

End Re.

(** ** Transform *)

(** A raw sheet as [pd.read_excel(..., header=None)] returns it: a
    rectangular grid of cells. *)
Record frame : Type := { ncols : nat; rows : list (list cell) }.

Definition rectangular (df : frame) : Prop :=
  Forall (fun r => List.length r = ncols df) (rows df).

(** [pd.DataFrame()] *)
Definition empty_frame : frame := {| ncols := 0; rows := [] |}.

(** The positional slice [l[a:b]]. *)
Definition slice {A : Type} (a b : nat) (l : list A) : list A :=
  firstn (b - a) (skipn a l).

(** One row of the transformed table. *)
Record row : Type := {
  Concepto : cell;
  Estimado : cell;
  Ampliaciones_Reducciones : cell;
  Modificado : cell;
  Devengado : cell;
  Recaudado : cell;
  Diferencia : cell;
  ClavePrimaria : cell;
  ClaveSecundaria : cell;
  Fecha : cell;
  Cuarto : cell
}.

Definition month_map : list (string * Z) :=
  [("enero", 1); ("febrero", 2); ("marzo", 3); ("abril", 4);
   ("mayo", 5); ("junio", 6); ("julio", 7); ("agosto", 8);
   ("septiembre", 9); ("octubre", 10); ("noviembre", 11); ("diciembre", 12)].

(** [d[key]] *)
Fixpoint getitem {V : Type} (d : list (string * V)) (key : string) : result V :=
  match d with
  | [] => Raise (KeyError key)
  | (k, v) :: d' => if String.eqb k key then Ok v else getitem d' key
  end.

(** [d.get(key, default)] *)
Definition get {V : Type} (d : list (string * V)) (key : string) (default : V) : V :=
  match getitem d key with
  | Ok v => v
  | Raise _ => default
  end.

(** [r'al (\d{1,2}) de (\w+) de (\d{4})'] *)
Definition date_pat : Re.regex :=
  Re.seqs [Re.lit "al "; Re.Group 1 (Re.Rep Re.Digit 1 (Some 2%nat));
           Re.lit " de "; Re.Group 2 (Re.Rep Re.Word 1 None);
           Re.lit " de "; Re.Group 3 (Re.Rep Re.Digit 4 (Some 4%nat))].

(** [r'^([A-Z]\.)'] *)
Definition prim_pat : Re.regex :=
  Re.Seq Re.Bol
    (Re.Group 1 (Re.Seq (Re.One (Re.Range "A" "Z")) (Re.One (Re.Lit ".")))).

(** [r'^([a-z]\d+\))'] *)
Definition sec_pat : Re.regex :=
  Re.Seq Re.Bol
    (Re.Group 1 (Re.seqs [Re.One (Re.Range "a" "z"); Re.Rep Re.Digit 1 None;
                          Re.One (Re.Lit ")")])).

(** [Series.str.extract(pat)[0]] on one element: the first group of the
    match, NaN without a match. *)
Definition str_extract (pat : Re.regex) (s : string) : cell :=
  match Re.search pat s with
  | Some m => CStr (Re.group m 1)
  | None => CNaN
  end.

(** [df.iloc[i, a:b]] *)
Definition iloc_row (df : frame) (i a b : nat) : result (list cell) :=
  match nth_error (rows df) i with
  | Some r => Ok (slice a b r)
  | None => Raise (IndexError "single positional indexer is out-of-bounds")
  end.

(** [df.iloc[r0:r1, c0:c1].values]: the block with its column count, which
    numpy keeps also when no row is left. *)
Definition iloc_values (df : frame) (r0 r1 c0 c1 : nat) : nat * list (list cell) :=
  (Nat.min c1 (ncols df) - c0, map (slice c0 c1) (slice r0 r1 (rows df)))%nat.

(** One row of [pd.DataFrame(data, columns=columns)] with the four derived
    columns assigned. *)
Definition table_row (fecha_final cuarto : cell) (r : list cell) : result row :=
  match r with
  | [c0; c1; c2; c3; c4; c5; c6] =>
      Ok {| Concepto := c0; Estimado := c1; Ampliaciones_Reducciones := c2;
            Modificado := c3; Devengado := c4; Recaudado := c5; Diferencia := c6;
            ClavePrimaria := str_extract prim_pat (str_cell c0);
            ClaveSecundaria := str_extract sec_pat (str_cell c0);
            Fecha := fecha_final; Cuarto := cuarto |}
  | _ => Raise (ValueError "7 columns passed")
  end.

Fixpoint map_result {A B : Type} (f : A -> result B) (l : list A) : result (list B) :=
  match l with
  | [] => Ok []
  | a :: l' =>
      match f a with
      | Ok b =>
          match map_result f l' with
          | Ok bs => Ok (b :: bs)
          | Raise e => Raise e
          end
      | Raise e => Raise e
      end
  end.

(** [pd.DataFrame(data, columns=columns)] for the seven column names,
    followed by the assignments to ClavePrimaria, ClaveSecundaria, Fecha
    and Cuarto. The constructor refuses data whose column count is not
    the number of names. *)
Definition table (data : nat * list (list cell)) (fecha_final cuarto : cell)
    : result (list row) :=
  if Nat.eqb (fst data) 7
  then map_result (table_row fecha_final cuarto) (snd data)
  else Raise (ValueError "Shape of passed values does not match the columns").

Local Open Scope py_scope.

(** The header text: row 3, columns 1..7, each cell as stripped text,
    joined by single spaces. *)
Definition date_range_str (df : frame) : result string :=
  cells <- iloc_row df 3 1 8 ;;
  Ok (PyStr.join " " (map (fun c => PyStr.strip (str_cell c)) cells)).

(** The [if m: ... else: ...] block: the pair (fecha_final, cuarto). *)
Definition parse_date (text : string) : result (cell * cell) :=
  match Re.search date_pat text with
  | Some m =>
      let day_n := PyStr.int_digits (Re.group m 1) in
      month_n <- getitem month_map (PyStr.lower (Re.group m 2)) ;;
      let year_n := PyStr.int_digits (Re.group m 3) in
      let fecha_final :=
        (PyStr.fmt_0d 2 day_n ++ "/" ++ PyStr.fmt_0d 2 month_n ++ "/"
           ++ PyStr.str_int year_n)%string in
      let cuarto := (month_n - 1) / 3 + 1 in
      Ok (CStr fecha_final, CInt cuarto)
  | None => Ok (CStr "", CStr "")
  end.

Definition transform_ingresos_detallado_data (df : frame) : result (list row) :=
  text <- date_range_str df ;;
  dc <- parse_date text ;;
  tbl1 <- table (iloc_values df 7 44 1 8) (fst dc) (snd dc) ;;
  tbl2 <- table (iloc_values df 45 76 1 8) (fst dc) (snd dc) ;;
  Ok (tbl1 ++ tbl2)%list.

(** ** Extract *)

(** What the extractor does to the outside world, in order. *)
Inductive io_event : Type :=
| S3Client
| S3GetObject (bucket key : string)
| ReadExcel (sheet_name : string)
| LogError (msg : string).

(** The outside world of one call: whether the S3 client can be built,
    what [get_object] answers for a bucket and key, and what
    [pd.read_excel] makes of a body. Each of them may raise. *)
Record world : Type := {
  s3_client : result unit;
  s3_get_object : string -> string -> result (list Byte.byte);
  read_excel : list Byte.byte -> string -> result frame
}.

Definition reverse_quarter_map : list (string * string) :=
  [("Q1", "1T"); ("Q2", "2T"); ("Q3", "3T"); ("Q4", "4T")].

(** The body of the [try]: the calls made and the frame, or the exception
    that stopped it. *)
Definition read_sheet (w : world) (bucket_name s3_key : string)
    : list io_event * result frame :=
  match s3_client w with
  | Raise e => ([S3Client], Raise e)
  | Ok _ =>
      match s3_get_object w bucket_name s3_key with
      | Raise e => ([S3Client; S3GetObject bucket_name s3_key], Raise e)
      | Ok body =>
          ([S3Client; S3GetObject bucket_name s3_key; ReadExcel "F5 EAI"],
           read_excel w body "F5 EAI")
      end
  end.

(** [f"F5_Edo_Ana_Ing_Det_LDF_{file_quarter}{year}.xlsx"] *)
Definition file_name (year : Z) (quarter : string) : string :=
  let file_quarter := get reverse_quarter_map quarter quarter in
  "F5_Edo_Ana_Ing_Det_LDF_" ++ file_quarter ++ PyStr.str_int year ++ ".xlsx".

(** [f"finanzas/Ingresos_Detallado/raw/{file_name}"] *)
Definition s3_key (year : Z) (quarter : string) : string :=
  "finanzas/Ingresos_Detallado/raw/" ++ file_name year quarter.

Definition extract_ingresos_detallado_data (w : world) (year : Z)
    (quarter source : string) (bucket_name : option string)
    : list io_event * result (frame * option string) :=
  if String.eqb source "s3" then
    match bucket_name with
    | None => ([], Raise (ValueError "bucket_name is required for S3 extraction"))
    | Some bucket =>
        let key := s3_key year quarter in
        let uri := "s3://" ++ bucket ++ "/" ++ key in
        match read_sheet w bucket key with
        | (io, Ok df) => (io, Ok (df, Some uri))
        | (io, Raise e) =>
            ((io ++ [LogError ("Failed to read file from S3: " ++ uri ++ ". Error: "
                                ++ exn_text e)])%list,
             Ok (empty_frame, None))
        end
    end
  else ([], Raise (ValueError "Invalid source. Use 's3'")).

(** ** Surrogate key *)

(** A row with its [id] column. *)
Record keyed : Type := { data : row; id : string }.

(** The text the key is computed from. *)
Definition key_text (r : row) : string :=
  (str_cell (Concepto r) ++ str_cell (Fecha r) ++ str_cell (Cuarto r))%string.

(** [lambda x: str(abs(hash(x)))], in a process whose hash secret is [k]. *)
Definition key_of (k : PyHash.secret) (x : string) : string :=
  PyStr.str_int (Z.abs (PyHash.hash k x)).

Definition generate_surrogate_key (k : PyHash.secret) (df : list row) : list keyed :=
  map (fun r => {| data := r; id := key_of k (key_text r) |}) df.

(** ** Load *)

Module Sql.

Inductive sqlval : Type :=
| Null
| Text (s : string)
| Int (n : Z)
| Float (bits : Z).      (* a double precision value, by its 64 bits *)

(** A record of [nuevo_leon_ingresos_detallado]; [id] is the primary key. *)
Record tuple : Type := {
  concepto : sqlval;
  estimado : sqlval;
  ampliaciones_reducciones : sqlval;
  modificado : sqlval;
  devengado : sqlval;
  recaudado : sqlval;
  diferencia : sqlval;
  clave_primaria : sqlval;
  clave_secundaria : sqlval;
  fecha : sqlval;
  cuarto : sqlval;
  id : string
}.

Definition relation : Type := list tuple.

Definition ids (rel : relation) : list string := map id rel.

(** The primary-key constraint. *)
Definition pk_unique (rel : relation) : Prop := NoDup (ids rel).

Definition has_id (i : string) (rel : relation) : bool :=
  existsb (fun t => String.eqb (id t) i) rel.

(** How many records carry the key [i]. *)
Definition count_id (i : string) (rel : relation) : nat :=
  List.length (filter (fun t => String.eqb (id t) i) rel).

(** [DO UPDATE SET col = excluded.col] for every column but [id]. *)
Definition do_update (old excluded : tuple) : tuple :=
  {| concepto := concepto excluded;
     estimado := estimado excluded;
     ampliaciones_reducciones := ampliaciones_reducciones excluded;
     modificado := modificado excluded;
     devengado := devengado excluded;
     recaudado := recaudado excluded;
     diferencia := diferencia excluded;
     clave_primaria := clave_primaria excluded;
     clave_secundaria := clave_secundaria excluded;
     fecha := fecha excluded;
     cuarto := cuarto excluded;
     id := id old |}.

(** One proposed row of [INSERT ... ON CONFLICT (id) DO UPDATE]: the record
    with its key is updated, a new key is appended. *)
Fixpoint put (r : tuple) (rel : relation) : relation :=
  match rel with
  | [] => [r]
  | t :: rel' =>
      if String.eqb (id t) (id r) then do_update t r :: rel'
      else t :: put r rel'
  end.

(** The rows of a command written one after the other. *)
Definition put_all (rs : list tuple) (rel : relation) : relation :=
  fold_left (fun acc r => put r acc) rs rel.

Section Storage.

(** The verdict of the storage layer on a row beyond the primary key:
    column types, other constraints. *)
Variable accepts : tuple -> bool.

(** The rows of [INSERT ... VALUES ... ON CONFLICT (id) DO UPDATE], in
    order. [touched] holds the keys this command has already written:
    PostgreSQL refuses to affect a record a second time in one command. *)
Fixpoint upsert_rows (rs : list tuple) (touched : list string) (rel : relation)
    : result relation :=
  match rs with
  | [] => Ok rel
  | r :: rs' =>
      if negb (accepts r) then
        Raise (OtherError "row rejected by the storage layer")
      else if existsb (String.eqb (id r)) touched then
        Raise (OtherError "ON CONFLICT DO UPDATE command cannot affect row a second time")
      else upsert_rows rs' (id r :: touched) (put r rel)
  end.

(** A statement maps the contents the transaction sees to the contents it
    leaves, and may raise. *)
Definition statement : Type := relation -> relation * result unit.

(** The upsert statement. It is one command: when it raises it leaves
    nothing behind. Without any row the command is
    [INSERT ... DEFAULT VALUES], which has no [id] and violates NOT NULL. *)
Definition upsert (rs : list tuple) : statement :=
  fun rel =>
    match rs with
    | [] => (rel, Raise (OtherError "null value in column id violates not-null constraint"))
    | _ =>
        match upsert_rows rs [] rel with
        | Ok rel' => (rel', Ok tt)
        | Raise e => (rel, Raise e)
        end
    end.

(** The rows of a plain [INSERT], one after the other; the rows written
    before a failure stay in the open transaction. *)
Fixpoint insert_rows (rs : list tuple) (rel : relation) : relation * result unit :=
  match rs with
  | [] => (rel, Ok tt)
  | r :: rs' =>
      if negb (accepts r) then
        (rel, Raise (OtherError "row rejected by the storage layer"))
      else if has_id (id r) rel then
        (rel, Raise (OtherError "duplicate key value violates unique constraint"))
      else insert_rows rs' (rel ++ [r])%list
  end.

(** [conn.execute(table.insert(), records)]; an empty parameter list runs
    [INSERT ... DEFAULT VALUES] once. *)
Definition insert (rs : list tuple) : statement :=
  fun rel =>
    match rs with
    | [] => (rel, Raise (OtherError "null value in column id violates not-null constraint"))
    | _ => insert_rows rs rel
    end.

(** [TRUNCATE TABLE nuevo_leon_ingresos_detallado;] *)
Definition truncate : statement := fun _ => ([], Ok tt).

(** A connection as SQLAlchemy 2 opens it on an engine with the default
    settings: the first statement begins a transaction, nothing is
    visible to others before [commit], and PostgreSQL undoes a TRUNCATE
    with the transaction it ran in. The state is what is committed and
    what the open transaction sees. *)
Record conn : Type := { committed : relation; work : relation }.

(** Code that runs on a connection and may raise. *)
Definition sql : Type := conn -> conn * result unit.

(** [conn.execute(stmt)]; the first one begins the transaction. *)
Definition execute (stmt : statement) : sql :=
  fun c =>
    let '(w, r) := stmt (work c) in
    ({| committed := committed c; work := w |}, r).

(** [conn.commit()] *)
Definition commit : sql :=
  fun c => ({| committed := work c; work := work c |}, Ok tt).

(** Two steps in sequence; an exception skips the second. *)
Definition and_then (a b : sql) : sql :=
  fun c =>
    match a c with
    | (c', Ok _) => b c'
    | (c', Raise e) => (c', Raise e)
    end.

(** [with engine.connect() as conn: body]. Leaving the block closes the
    connection, which rolls back whatever was not committed. *)
Definition with_connection (body : sql) (db : relation) : relation * result unit :=
  let '(c, r) := body {| committed := db; work := db |} in
  (committed c, r).

(** [metadata.create_all(engine)]: creates the table when it is missing
    and touches no record. *)
Definition create_all (db : relation) : relation := db.

(** [try: ... except Exception as e: raise RuntimeError(f"{what}: {e}")] *)
Definition reraise (what : string) (r : result unit) : result unit :=
  match r with
  | Ok x => Ok x
  | Raise e => Raise (RuntimeError (what ++ ": " ++ exn_text e)%string)
  end.

Definition single_load (df : list tuple) (db : relation) : relation * result unit :=
  let '(db', r) :=
    with_connection (and_then (execute (upsert df)) commit) (create_all db) in
  (db', reraise "Single load (upsert) failed" r).

Definition bulk_load (df : list tuple) (db : relation) : relation * result unit :=
  let '(db', r) :=
    with_connection
      (and_then (execute truncate) (and_then (execute (insert df)) commit))
      (create_all db) in
  (db', reraise "Bulk load failed" r).

End Storage.

(** A record of the report with the key [i]. *)
Definition rec (i : string) (c : string) (amount : Z) : tuple :=
  {| concepto := Text c; estimado := Float amount;
     ampliaciones_reducciones := Null; modificado := Float amount;
     devengado := Float amount; recaudado := Float amount; diferencia := Null;
     clave_primaria := Text "A."; clave_secundaria := Null;
     fecha := Text "15/03/2024"; cuarto := Int 1; id := i |}.

End Sql.

(** ** The load dispatcher *)

(** The three operations of [PostgreSqlClient] that [load] calls. The
    class lives in [app.etl_central.connectors.postgresql]; here it is a
    parameter: each operation takes the records and the contents of the
    table and leaves new contents, or raises. *)
Record client : Type := {
  client_insert : list Sql.tuple -> Sql.relation -> Sql.relation * result unit;
  client_upsert : list Sql.tuple -> Sql.relation -> Sql.relation * result unit;
  client_overwrite : list Sql.tuple -> Sql.relation -> Sql.relation * result unit
}.

Definition load (df : list Sql.tuple) (postgresql_client : client)
    (load_method : string) (db : Sql.relation) : Sql.relation * result unit :=
  if String.eqb load_method "insert" then client_insert postgresql_client df db
  else if String.eqb load_method "upsert" then client_upsert postgresql_client df db
  else if String.eqb load_method "overwrite" then client_overwrite postgresql_client df db
  else (db, Raise (ValueError
              "Invalid load method: choose from [insert, upsert, overwrite]")).

(** * Vocabulary of the properties *)


(** In the text [pre ++ s], [x] starts at no offset inside [pre]. *)
Fixpoint no_start (x pre s : string) : bool :=
  match pre with
  | EmptyString => true
  | String _ pre' => negb (prefix x (pre ++ s)) && no_start x pre' s
  end.

(** What the date block computes from the day, the month word and the
    year it has captured. *)
Definition date_of (d w y : string) : result (cell * cell) :=
  match getitem month_map (PyStr.lower w) with
  | Ok month_n =>
      Ok (CStr (PyStr.fmt_0d 2 (PyStr.int_digits d) ++ "/" ++ PyStr.fmt_0d 2 month_n
                ++ "/" ++ PyStr.str_int (PyStr.int_digits y)),
          CInt ((month_n - 1) / 3 + 1))
  | Raise e => Raise e
  end.

(** The row [r] with other values in the three fields the key is made
    from. *)
Definition with_key_fields (r : row) (concepto fecha cuarto : cell) : row :=
  {| Concepto := concepto; Estimado := Estimado r;
     Ampliaciones_Reducciones := Ampliaciones_Reducciones r;
     Modificado := Modificado r; Devengado := Devengado r;
     Recaudado := Recaudado r; Diferencia := Diferencia r;
     ClavePrimaria := ClavePrimaria r; ClaveSecundaria := ClaveSecundaria r;
     Fecha := fecha; Cuarto := cuarto |}.

(** A 64-bit word. *)
Definition in64 (x : Z) : Prop := 0 <= x < 2 ^ 64.

(** The row sets both loaders take: at least one row, every row accepted
    by the storage layer, no key twice. *)
Definition loadable (accepts : Sql.tuple -> bool) (df : list Sql.tuple) : Prop :=
  df <> [] /\ forallb accepts df = true /\ NoDup (Sql.ids df).

(** The three calls of a read that succeeds, in order. *)
Definition read_calls (bucket key : string) : list io_event :=
  [S3Client; S3GetObject bucket key; ReadExcel "F5 EAI"].

(** The integer a decimal numeral denotes, if the text is one. *)
Definition decimal_value (s : string) : option Z :=
  option_map Z.of_int (NilZero.int_of_string s).

(** A failure inside the [try]: building the client, fetching the object,
    or parsing the workbook raises [e]. *)
Definition read_fails (w : world) (bucket key : string) (e : exn) : Prop :=
  s3_client w = Raise e
  \/ (s3_client w = Ok tt /\ s3_get_object w bucket key = Raise e)
  \/ (s3_client w = Ok tt /\
      exists body, s3_get_object w bucket key = Ok body
                   /\ read_excel w body "F5 EAI" = Raise e).

(** What the transform assigns to the derived columns of a row. *)
Definition derived (fecha_final cuarto : cell) (r : row) : Prop :=
  Fecha r = fecha_final /\ Cuarto r = cuarto
  /\ ClavePrimaria r = str_extract prim_pat (str_cell (Concepto r))
  /\ ClaveSecundaria r = str_extract sec_pat (str_cell (Concepto r)).

Definition two_digits (s : string) : bool :=
  match s with
  | String a (String b EmptyString) => PyStr.is_digit a && PyStr.is_digit b
  | _ => false
  end.

Definition four_digits (s : string) : bool :=
  match s with
  | String a (String b (String c (String d EmptyString))) =>
      PyStr.is_digit a && PyStr.is_digit b && PyStr.is_digit c && PyStr.is_digit d
  | _ => false
  end.

(** The form DD/MM/YYYY: two digits, a slash, two digits, a slash, four
    digits, and nothing else. *)
Definition ddmmyyyy (s : string) : bool :=
  match s with
  | String d1 (String d2 (String s1 (String m1 (String m2 (String s2 yyyy))))) =>
      two_digits (String d1 (String d2 EmptyString)) && Ascii.eqb s1 "/"
      && two_digits (String m1 (String m2 EmptyString)) && Ascii.eqb s2 "/"
      && four_digits yyyy
  | _ => false
  end.

(** [s] starts with one upper-case letter and a period; [p] is that
    prefix. *)
Definition starts_upper_period (s p : string) : Prop :=
  exists c rest,
    s = String c (String "." rest) /\ PyStr.is_upper_az c = true
    /\ p = String c (String "." EmptyString).

(** [s] starts with a lower-case letter, one or more digits and a closing
    parenthesis; [p] is that prefix. *)
Definition starts_lower_digits_paren (s p : string) : Prop :=
  exists c ds rest,
    s = String c (ds ++ String ")" rest) /\ PyStr.is_lower_az c = true
    /\ ds <> "" /\ PyStr.all_chars PyStr.is_digit ds = true
    /\ p = String c (ds ++ ")").

(** A column value that is present and not the empty string. *)
Definition non_empty (c : cell) : Prop := exists p, c = CStr p /\ p <> "".

(** * Sample data *)

(** A world whose bucket does not hold the object. *)
Definition no_such_key : world :=
  {| s3_client := Ok tt;
     s3_get_object := fun _ _ => Raise (OtherError "NoSuchKey");
     read_excel := fun _ _ => Ok empty_frame |}.

(** The end-to-end example row of the report. *)
Definition impuestos : row :=
  {| Concepto := CStr "A. Impuestos"; Estimado := CObj "100.0";
     Ampliaciones_Reducciones := CObj "0.0"; Modificado := CObj "100.0";
     Devengado := CObj "40.0"; Recaudado := CObj "40.0"; Diferencia := CObj "-60.0";
     ClavePrimaria := CStr "A."; ClaveSecundaria := CNaN;
     Fecha := CStr "15/03/2024"; Cuarto := CInt 1 |}.

Definition blank_row : list cell := repeat CNaN 8.

Definition header_row (h : string) : list cell := CNaN :: CStr h :: repeat CNaN 6.

Definition detail_row (concepto amount : string) : list cell :=
  [CNaN; CStr concepto; CObj amount; CObj "0.0"; CObj amount; CObj amount;
   CObj amount; CObj "0.0"].

(** A small sheet of the report's layout: the header text in row 3,
    column 1, and three detail rows from row 7 on. *)
Definition sample_sheet (h : string) : frame :=
  {| ncols := 8;
     rows := [blank_row; blank_row; blank_row; header_row h;
              blank_row; blank_row; blank_row;
              detail_row "A. Impuestos" "100.0";
              detail_row "a1) Impuestos sobre los ingresos" "40.0";
              detail_row "Total de Ingresos" "100.0"] |}.

(** The sample sheet with three more rows, two of them blank. *)
Definition sheet_with_blanks : frame :=
  {| ncols := 8;
     rows := (rows (sample_sheet "al 15 de marzo de 2024")
              ++ [blank_row; detail_row "B. Cuotas" "7.0"; blank_row])%list |}.

(** * Properties *)

(** ** The hash model against the interpreter

    Values printed by CPython 3.11 (SipHash-1-3) under PYTHONHASHSEED
    0, 1 and 2. *)

Example hash_seed0 :
  PyHash.hash (PyHash.secret_of_seed 0) "A. Impuestos15/03/20241" = 6477787730053640083.
Proof. vm_compute. reflexivity. Qed.

Example hash_seed1 :
  map (PyHash.hash (PyHash.secret_of_seed 1)) ["a"; "abcdefgh"; "abcdefghijklmnopq"; ""]
  = [-3012895188637184397; -202642195356325900; 7300304297962845018; 0].
Proof. vm_compute. reflexivity. Qed.

Example hash_seed2 :
  map (PyHash.hash (PyHash.secret_of_seed 2)) ["a"; "abcdefgh"; "A. Impuestos15/03/20241"]
  = [6352457989142756797; -8070226647845373566; 2962773747293235712].
Proof. vm_compute. reflexivity. Qed.

(** ** Extract *)

Lemma read_fails_raises w bucket key e :
  read_fails w bucket key e -> snd (read_sheet w bucket key) = Raise e.
Proof.
  unfold read_fails, read_sheet.
  intros [H | [[Hc H] | [Hc [body [Hb H]]]]].
  - now rewrite H.
  - now rewrite Hc, H.
  - now rewrite Hc, Hb.
Qed.

(** C8. With source "s3" and a bucket name, whenever reading the object or
    parsing it raises, the extractor returns the empty frame and [None]
    as provenance; it does not raise. *)
Theorem extract_soft_failure w year quarter bucket e :
  read_fails w bucket (s3_key year quarter) e ->
  snd (extract_ingresos_detallado_data w year quarter "s3" (Some bucket))
  = Ok (empty_frame, None).
Proof.
  intros H. apply read_fails_raises in H.
  unfold extract_ingresos_detallado_data. simpl String.eqb. cbv iota.
  destruct (read_sheet w bucket (s3_key year quarter)) as [io [df | e']];
    simpl in *; [discriminate | reflexivity].
Qed.

Lemma extract_soft_failure_witness :
  read_fails no_such_key "finanzas-nl" (s3_key 2024 "Q1") (OtherError "NoSuchKey")
  /\ snd (extract_ingresos_detallado_data no_such_key 2024 "Q1" "s3" (Some "finanzas-nl"))
     = Ok (empty_frame, None).
Proof.
  split.
  - right; left; split; reflexivity.
  - apply (@extract_soft_failure no_such_key 2024 "Q1" "finanzas-nl" (OtherError "NoSuchKey")).
    right; left; split; reflexivity.
Defined.

(** C10. With source "s3" and no bucket name the extractor raises
    ValueError, whatever the world would answer, and before it touches
    the world: the list of calls is empty. *)
Theorem extract_requires_bucket w year quarter :
  extract_ingresos_detallado_data w year quarter "s3" None
  = ([], Raise (ValueError "bucket_name is required for S3 extraction")).
Proof. reflexivity. Qed.

(** ** Surrogate key *)

Lemma string_of_uint_digits d :
  PyStr.all_chars PyStr.is_digit (NilEmpty.string_of_uint d) = true.
Proof. induction d; simpl; try rewrite IHd; reflexivity. Qed.

Lemma str_int_digits n :
  0 <= n -> PyStr.all_chars PyStr.is_digit (PyStr.str_int n) = true.
Proof.
  intros Hn. unfold PyStr.str_int.
  destruct n as [| p | p]; [reflexivity | | lia].
  simpl. unfold NilZero.string_of_uint.
  destruct (Pos.to_uint p) eqn:E; try reflexivity;
    rewrite <- E; apply string_of_uint_digits.
Qed.

Lemma str_int_value n : decimal_value (PyStr.str_int n) = Some n.
Proof.
  unfold decimal_value, PyStr.str_int.
  rewrite NilZero.isi.
  - simpl. now rewrite DecimalZ.of_to.
  - destruct n; simpl; try discriminate.
    intros [= H]. now apply (DecimalPos.Unsigned.to_uint_nonnil p).
  - destruct n; simpl; try discriminate.
    intros [= H]. now apply (DecimalPos.Unsigned.to_uint_nonnil p).
Qed.

Lemma str_int_nonempty n : PyStr.str_int n <> "".
Proof.
  intros H. pose proof (str_int_value n) as V. rewrite H in V. discriminate.
Qed.

(** C4. Every row of the frame gets an [id]; it is the decimal numeral of
    the non-negative integer |hash(x)|, where x is the text of Concepto,
    Fecha and Cuarto put together in that order with nothing in between,
    and [hash] is the hash of the running process. The generator is a
    total function of the frame: it keeps every row and never raises. *)
Theorem generate_surrogate_key_decimal (k : PyHash.secret) (df : list row) :
  map data (generate_surrogate_key k df) = df
  /\ forall kr, In kr (generate_surrogate_key k df) ->
       let x := str_cell (Concepto (data kr)) ++ str_cell (Fecha (data kr))
                ++ str_cell (Cuarto (data kr)) in
       let n := Z.abs (PyHash.hash k x) in
       0 <= n
       /\ id kr = PyStr.str_int n
       /\ decimal_value (id kr) = Some n
       /\ PyStr.all_chars PyStr.is_digit (id kr) = true
       /\ id kr <> "".
Proof.
  split.
  - unfold generate_surrogate_key. rewrite map_map. simpl. apply map_id.
  - intros kr Hin. unfold generate_surrogate_key in Hin.
    apply in_map_iff in Hin. destruct Hin as [r [<- _]].
    cbn [data id]. unfold key_of, key_text.
    pose proof (Z.abs_nonneg
      (PyHash.hash k (str_cell (Concepto r) ++ str_cell (Fecha r) ++ str_cell (Cuarto r)))).
    repeat split; auto using str_int_value, str_int_digits, str_int_nonempty.
Qed.

Lemma generate_surrogate_key_decimal_witness :
  let kr := {| data := impuestos; id := "6477787730053640083" |} in
  In kr (generate_surrogate_key (PyHash.secret_of_seed 0) [impuestos])
  /\ decimal_value (id kr) = Some 6477787730053640083
  /\ PyStr.all_chars PyStr.is_digit (id kr) = true.
Proof.
  assert (Hin : In {| data := impuestos; id := "6477787730053640083" |}
                  (generate_surrogate_key (PyHash.secret_of_seed 0) [impuestos]))
    by (vm_compute; auto).
  destruct (proj2 (generate_surrogate_key_decimal (PyHash.secret_of_seed 0) [impuestos])
              _ Hin) as [_ [_ [Hv [Hd _]]]].
  split; [exact Hin |]. split; [| exact Hd].
  rewrite Hv. vm_compute. reflexivity.
Defined.

(** C2. The same row gets different ids in two runs of the program: the
    key is computed with the built-in [hash], which is salted with the
    secret of the process. Here under PYTHONHASHSEED=1 and under
    PYTHONHASHSEED=2; the values are those CPython 3.11 prints. *)
Theorem generate_surrogate_key_differs_between_runs :
  map id (generate_surrogate_key (PyHash.secret_of_seed 1) [impuestos])
    = ["2474302109243635268"]
  /\ map id (generate_surrogate_key (PyHash.secret_of_seed 2) [impuestos])
    = ["2962773747293235712"]
  /\ ~ (forall k1 k2 : PyHash.secret, forall r : row,
          map id (generate_surrogate_key k1 [r]) = map id (generate_surrogate_key k2 [r])).
Proof.
  assert (H1 : map id (generate_surrogate_key (PyHash.secret_of_seed 1) [impuestos])
               = ["2474302109243635268"]) by (vm_compute; reflexivity).
  assert (H2 : map id (generate_surrogate_key (PyHash.secret_of_seed 2) [impuestos])
               = ["2962773747293235712"]) by (vm_compute; reflexivity).
  repeat split; auto.
  intros H.
  specialize (H (PyHash.secret_of_seed 1) (PyHash.secret_of_seed 2) impuestos).
  rewrite H1, H2 in H. discriminate.
Qed.

(** ** What a successful match says about the subject *)

Module ReFacts.
Import Re.

Lemma rep_sound (A : Type) k (cont : nat -> string -> option A) x :
  forall s lo hi p,
    rep k lo hi p s cont = Some x ->
    exists pre s', s = pre ++ s'
                   /\ PyStr.all_chars (in_class k) pre = true
                   /\ (lo <= String.length pre)%nat /\ within (String.length pre) hi
                   /\ cont (p + String.length pre)%nat s' = Some x.
Proof.
  assert (Hstop : forall s lo hi p,
            match lo with O => cont p s | S _ => None end = Some x ->
            exists pre s', s = pre ++ s'
                   /\ PyStr.all_chars (in_class k) pre = true
                   /\ (lo <= String.length pre)%nat /\ within (String.length pre) hi
                   /\ cont (p + String.length pre)%nat s' = Some x).
  { intros s lo hi p H. destruct lo; [| discriminate].
    exists "", s. simpl. rewrite Nat.add_0_r.
    repeat split; auto. destruct hi; simpl; lia. }
  induction s as [| c s IH]; intros lo hi p H; simpl in H.
  - now apply Hstop.
  - destruct (in_class k c && has_room hi) eqn:E; [| now apply Hstop].
    apply andb_prop in E. destruct E as [Hc Hroom].
    destruct (rep k (Nat.pred lo) (option_map Nat.pred hi) (S p) s cont) eqn:R;
      [| now apply Hstop].
    injection H as <-.
    apply IH in R. destruct R as [pre [s' [-> [Hall [Hlo [Hhi Hk]]]]]].
    exists (String c pre), s'. simpl. rewrite Hc, Hall.
    repeat split; auto.
    + lia.
    + destruct hi as [[| h] |]; simpl in *; try discriminate; auto; lia.
    + now rewrite <- plus_n_Sm.
Qed.

Lemma run_sound (A : Type) r :
  forall st (cont : mstate -> option A) x,
    run r st cont = Some x -> exists st', sem r st st' /\ cont st' = Some x.
Proof.
  induction r as [| | k | k lo hi | r1 IH1 r2 IH2 | n r IH]; intros st cont x H; simpl in H.
  - now exists st.
  - destruct (pos st) eqn:E; [| discriminate]. exists st. simpl. now rewrite E.
  - destruct (rest st) as [| c s'] eqn:E; [discriminate |].
    destruct (in_class k c) eqn:Hc; [| discriminate].
    eexists. split; [| exact H]. simpl. exists c. now rewrite E.
  - apply rep_sound in H. destruct H as [pre [s' [E [Hall [Hlo [Hhi Hk]]]]]].
    eexists. split; [| exact Hk]. simpl. exists pre. repeat split; auto.
  - apply IH1 in H. destruct H as [mid [S1 H]].
    apply IH2 in H. destruct H as [st' [S2 H]].
    exists st'. split; [| exact H]. simpl. now exists mid.
  - apply IH in H. destruct H as [st1 [S1 H]].
    eexists. split; [| exact H]. simpl. exists st1. repeat split; auto.
Qed.

(** A match only reads forward: the text consumed is a prefix of what was
    left, and the offset moves by its length. *)
Lemma sem_consumes r :
  forall st st', sem r st st' ->
    exists pre, rest st = pre ++ rest st'
                /\ pos st' = (pos st + String.length pre)%nat.
Proof.
  induction r as [| | k | k lo hi | r1 IH1 r2 IH2 | n r IH]; intros st st' H; simpl in H.
  - subst. exists "". simpl. now rewrite Nat.add_0_r.
  - destruct H as [_ ->]. exists "". simpl. now rewrite Nat.add_0_r.
  - destruct H as [c [_ [E [P _]]]]. exists (String c ""). simpl.
    split; [exact E | lia].
  - destruct H as [pre [E [_ [_ [_ [P _]]]]]]. now exists pre.
  - destruct H as [mid [H1 H2]].
    apply IH1 in H1. destruct H1 as [p1 [E1 P1]].
    apply IH2 in H2. destruct H2 as [p2 [E2 P2]].
    exists (p1 ++ p2). rewrite E1, E2, P2, P1.
    split.
    + clear. induction p1; simpl; congruence.
    + assert (String.length (p1 ++ p2) = (String.length p1 + String.length p2)%nat) as ->.
      { clear. induction p1; simpl; congruence. }
      lia.
  - destruct H as [st1 [H1 [P [R _]]]].
    apply IH in H1. destruct H1 as [pre [E1 P1]].
    exists pre. now rewrite R, P.
Qed.

Lemma substring_prefix pre s : substring 0 (String.length pre) (pre ++ s) = pre.
Proof.
  induction pre as [| c pre IH]; simpl.
  - now destruct s.
  - now rewrite IH.
Qed.

Lemma search_from_sound r :
  forall s p m, search_from r p s = Some m -> exists q s', match_at r q s' = Some m.
Proof.
  induction s as [| c s IH]; intros p m H; simpl in H.
  - destruct (match_at r p "") eqn:E; [| discriminate].
    injection H as <-. eauto.
  - destruct (match_at r p (String c s)) eqn:E.
    + injection H as <-. eauto.
    + eauto.
Qed.

Lemma sem_lit x :
  forall st st', sem (lit x) st st' ->
    rest st = x ++ rest st' /\ pos st' = (pos st + String.length x)%nat
    /\ groups st' = groups st.
Proof.
  induction x as [| c x IH]; intros st st' H; simpl in H.
  - subst. simpl. now rewrite Nat.add_0_r.
  - destruct H as [mid [[c' [Hc [E [P G]]]] H2]].
    apply IH in H2. destruct H2 as [E2 [P2 G2]].
    simpl in Hc. apply Ascii.eqb_eq in Hc. subst c'.
    rewrite E, E2, P2, P, G2, G. simpl. repeat split; auto; lia.
Qed.

Lemma sem_group_rep n k lo hi st st' :
  sem (Group n (Rep k lo hi)) st st' ->
  exists pre, rest st = pre ++ rest st'
              /\ PyStr.all_chars (in_class k) pre = true
              /\ (lo <= String.length pre)%nat /\ within (String.length pre) hi
              /\ pos st' = (pos st + String.length pre)%nat
              /\ groups st' = (n, pre) :: groups st.
Proof.
  simpl. intros [st1 [[pre [E [Hall [Hlo [Hhi [P G]]]]]] [P' [R' G']]]].
  exists pre. rewrite R', P', G', G, P, E.
  replace (pos st + String.length pre - pos st)%nat with (String.length pre) by lia.
  rewrite substring_prefix. repeat split; auto.
Qed.

End ReFacts.

(** What a match of the date pattern holds: one or two digits, a word,
    four digits, between the fixed words. *)
Lemma date_pat_groups p s m :
  Re.match_at date_pat p s = Some m ->
  let d := Re.group m 1 in
  let w := Re.group m 2 in
  let y := Re.group m 3 in
  PyStr.all_chars PyStr.is_digit d = true
  /\ (1 <= String.length d <= 2)%nat
  /\ PyStr.all_chars PyStr.is_word w = true /\ (1 <= String.length w)%nat
  /\ PyStr.all_chars PyStr.is_digit y = true /\ String.length y = 4%nat
  /\ exists post, s = "al " ++ d ++ " de " ++ w ++ " de " ++ y ++ post.
Proof.
  unfold Re.match_at. intros H.
  apply ReFacts.run_sound in H. destruct H as [st' [H G]]. injection G as <-.
  unfold date_pat, Re.seqs in H. cbn [Re.sem] in H.
  destruct H as [s1 [L1 [s2 [G1 [s3 [L2 [s4 [G2 [s5 [L3 [s6 [G3 ->]]]]]]]]]]]].
  apply ReFacts.sem_lit in L1, L2, L3.
  apply ReFacts.sem_group_rep in G1, G2, G3.
  destruct L1 as [E1 [_ H1]], L2 as [E3 [_ H3]], L3 as [E5 [_ H5]].
  destruct G1 as [d [E2 [Dd [Dlo [Dhi [_ H2]]]]]].
  destruct G2 as [w [E4 [Ww [Wlo [_ [_ H4]]]]]].
  destruct G3 as [y [E6 [Yy [Ylo [Yhi [_ H6]]]]]].
  simpl in E1. rewrite H6, H5, H4, H3, H2, H1. simpl.
  simpl in Dhi, Yhi.
  repeat split; auto; try lia.
  exists (Re.rest s6).
  rewrite E1, E2, E3, E4, E5, E6. reflexivity.
Qed.

(** ** Transform: the table *)

Lemma table_row_derived f c l r : table_row f c l = Ok r -> derived f c r.
Proof.
  unfold table_row.
  destruct l as [| c0 [| c1 [| c2 [| c3 [| c4 [| c5 [| c6 [| c7 l]]]]]]]];
    try discriminate.
  intros [= <-]. repeat split.
Qed.

Lemma map_result_Forall (A B : Type) (f : A -> result B) (P : B -> Prop) :
  (forall a b, f a = Ok b -> P b) ->
  forall l bs, map_result f l = Ok bs -> Forall P bs.
Proof.
  intros Hf. induction l as [| a l IH]; intros bs H; simpl in H.
  - injection H as <-. constructor.
  - destruct (f a) as [b |] eqn:E; [| discriminate].
    destruct (map_result f l) as [bs' |]; [| discriminate].
    injection H as <-. constructor; eauto.
Qed.

Lemma map_result_total (A B : Type) (f : A -> result B) :
  forall l, Forall (fun a => exists b, f a = Ok b) l ->
    exists bs, map_result f l = Ok bs /\ List.length bs = List.length l.
Proof.
  induction l as [| a l IH]; intros H; simpl.
  - now exists [].
  - inversion H as [| ? ? [b Hb] Hl]; subst.
    destruct (IH Hl) as [bs [-> Hlen]].
    rewrite Hb. exists (b :: bs). simpl. now rewrite Hlen.
Qed.

Lemma In_slice (A : Type) (a b : nat) (l : list A) x : In x (slice a b l) -> In x l.
Proof.
  unfold slice. intros H.
  rewrite <- (firstn_skipn a l). apply in_or_app. right.
  rewrite <- (firstn_skipn (b - a) (skipn a l)). apply in_or_app. now left.
Qed.

Lemma table_derived data f c t : table data f c = Ok t -> Forall (derived f c) t.
Proof.
  unfold table. destruct (Nat.eqb (fst data) 7); [| discriminate].
  apply map_result_Forall. intros a b. apply table_row_derived.
Qed.

(** On a rectangular sheet with at least eight columns the table
    constructor accepts every window of columns 1..7. *)
Lemma table_total df r0 r1 f c :
  rectangular df -> (8 <= ncols df)%nat ->
  exists t, table (iloc_values df r0 r1 1 8) f c = Ok t
            /\ List.length t = List.length (slice r0 r1 (rows df)).
Proof.
  intros Hrect Hw. unfold table, iloc_values. cbn [fst snd].
  replace (Nat.min 8 (ncols df) - 1)%nat with 7%nat by lia. simpl Nat.eqb.
  destruct (@map_result_total _ _ (table_row f c)
              (map (slice 1 8) (slice r0 r1 (rows df)))) as [t [Ht Hlen]].
  - apply Forall_forall. intros l Hl.
    apply in_map_iff in Hl. destruct Hl as [r [<- Hr]].
    apply In_slice in Hr.
    assert (List.length (slice 1 8 r) = 7%nat) as Hlen.
    { unfold slice. rewrite length_firstn, length_skipn.
      unfold rectangular in Hrect. rewrite Forall_forall in Hrect.
      rewrite (Hrect r Hr). lia. }
    destruct (slice 1 8 r) as [| c0 [| c1 [| c2 [| c3 [| c4 [| c5 [| c6 [| c7 l]]]]]]]];
      try discriminate.
    simpl. eauto.
  - exists t. rewrite length_map in Hlen. auto.
Qed.

Lemma transform_rows df out :
  transform_ingresos_detallado_data df = Ok out ->
  exists text f c, date_range_str df = Ok text /\ parse_date text = Ok (f, c)
                   /\ Forall (derived f c) out.
Proof.
  unfold transform_ingresos_detallado_data, bind. intros H.
  destruct (date_range_str df) as [text |]; [| discriminate].
  destruct (parse_date text) as [[f c] |] eqn:P; [| discriminate].
  cbn [fst snd] in H.
  destruct (table (iloc_values df 7 44 1 8) f c) as [t1 |] eqn:T1; [| discriminate].
  destruct (table (iloc_values df 45 76 1 8) f c) as [t2 |] eqn:T2; [| discriminate].
  injection H as <-.
  exists text, f, c. split; [reflexivity |]. split; [exact P |].
  apply Forall_app. split; eapply table_derived; eauto.
Qed.

Lemma transform_total df text f c :
  rectangular df -> (8 <= ncols df)%nat ->
  date_range_str df = Ok text -> parse_date text = Ok (f, c) ->
  exists out, transform_ingresos_detallado_data df = Ok out
              /\ Forall (derived f c) out
              /\ List.length out = (List.length (slice 7 44 (rows df))
                                    + List.length (slice 45 76 (rows df)))%nat.
Proof.
  intros Hrect Hw Ht Hp.
  destruct (@table_total df 7 44 f c Hrect Hw) as [t1 [T1 L1]].
  destruct (@table_total df 45 76 f c Hrect Hw) as [t2 [T2 L2]].
  exists (t1 ++ t2)%list.
  unfold transform_ingresos_detallado_data, bind.
  rewrite Ht, Hp. cbn [fst snd]. rewrite T1, T2.
  repeat split.
  - apply Forall_app. split; eapply table_derived; eauto.
  - rewrite length_app. lia.
Qed.

(** ** Transform: the reporting date *)

Lemma digit_val_range c : PyStr.is_digit c = true -> 0 <= PyStr.digit_val c <= 9.
Proof.
  unfold PyStr.is_digit, PyStr.in_range, PyStr.digit_val.
  intros H. apply andb_prop in H. destruct H as [H1 H2].
  apply Z.leb_le in H1, H2. lia.
Qed.

Lemma int_digits_bound s :
  PyStr.all_chars PyStr.is_digit s = true ->
  0 <= PyStr.int_digits s < 10 ^ Z.of_nat (String.length s).
Proof.
  unfold PyStr.int_digits.
  assert (G : forall s acc, PyStr.all_chars PyStr.is_digit s = true -> 0 <= acc ->
            acc * 10 ^ Z.of_nat (String.length s)
            <= fold_left (fun a c => 10 * a + PyStr.digit_val c) (list_ascii_of_string s) acc
            < (acc + 1) * 10 ^ Z.of_nat (String.length s)).
  { clear s. induction s as [| c s IH]; intros acc H Hacc.
    - simpl. lia.
    - simpl PyStr.all_chars in H. apply andb_prop in H. destruct H as [Hc Hs].
      apply digit_val_range in Hc.
      cbn [list_ascii_of_string fold_left String.length].
      specialize (IH (10 * acc + PyStr.digit_val c) Hs ltac:(lia)).
      rewrite Nat2Z.inj_succ, Z.pow_succ_r by lia.
      assert (0 < 10 ^ Z.of_nat (String.length s)) by (apply Z.pow_pos_nonneg; lia).
      nia. }
  intros H. specialize (G s 0 H ltac:(lia)). lia.
Qed.

Lemma fmt_0d_two_digits n : 0 <= n <= 99 -> two_digits (PyStr.fmt_0d 2 n) = true.
Proof.
  intros Hn.
  assert (H : forallb (fun k => two_digits (PyStr.fmt_0d 2 (Z.of_nat k))) (seq 0 100) = true)
    by (vm_compute; reflexivity).
  rewrite forallb_forall in H. specialize (H (Z.to_nat n)).
  rewrite Z2Nat.id in H by lia. apply H. apply in_seq. lia.
Qed.

Lemma str_int_four_digits n : 1000 <= n <= 9999 -> four_digits (PyStr.str_int n) = true.
Proof.
  intros Hn.
  assert (H : forallb (fun k => four_digits (PyStr.str_int (1000 + Z.of_nat k)))
                      (seq 0 (Z.to_nat 9000)) = true)
    by (vm_compute; reflexivity).
  rewrite forallb_forall in H. specialize (H (Z.to_nat (n - 1000))).
  rewrite Z2Nat.id in H by lia.
  replace (1000 + (n - 1000)) with n in H by lia.
  apply H. apply in_seq. lia.
Qed.

Lemma month_map_range key n : getitem month_map key = Ok n -> 1 <= n <= 12.
Proof.
  unfold month_map. cbn [getitem].
  repeat (destruct (String.eqb _ key); [intros [= <-]; lia |]).
  discriminate.
Qed.

Lemma getitem_missing (V : Type) (d : list (string * V)) key :
  ~ In key (map fst d) -> getitem d key = Raise (KeyError key).
Proof.
  induction d as [| [k v] d IH]; intros H; simpl in *.
  - reflexivity.
  - destruct (String.eqb_spec k key) as [-> | _].
    + exfalso. apply H. now left.
    + apply IH. intros Hin. apply H. now right.
Qed.

Lemma quarter_range n : 1 <= n <= 12 -> 1 <= (n - 1) / 3 + 1 <= 4.
Proof.
  intros Hn.
  assert (0 <= (n - 1) / 3) by (apply Z.div_pos; lia).
  assert ((n - 1) / 3 < 4) by (apply Z.div_lt_upper_bound; lia).
  lia.
Qed.

Lemma ddmmyyyy_parts a b c :
  two_digits a = true -> two_digits b = true -> four_digits c = true ->
  ddmmyyyy (a ++ "/" ++ b ++ "/" ++ c) = true.
Proof.
  destruct a as [| a1 [| a2 [| ? ?]]]; try discriminate.
  destruct b as [| b1 [| b2 [| ? ?]]]; try discriminate.
  intros Ha Hb Hc. simpl append. unfold ddmmyyyy.
  rewrite Ha, Hb, Hc. reflexivity.
Qed.

Lemma sample_sheet_rectangular h : rectangular (sample_sheet h).
Proof. unfold rectangular. simpl. repeat constructor. Qed.

(** C6, as the code has it. On a sheet of the report's layout whose header
    text matches the date pattern with a month name of the table and a
    year of at least 1000, the transform returns, and every row carries
    the date as DD/MM/YYYY (day and month padded to two digits) and the
    quarter (month - 1) // 3 + 1, which lies in 1..4. The header
    "al 15 de marzo de 2024" gives "15/03/2024" and quarter 1. *)
Theorem transform_fecha_cuarto df text m month_n :
  rectangular df -> (8 <= ncols df)%nat ->
  date_range_str df = Ok text ->
  Re.search date_pat text = Some m ->
  getitem month_map (PyStr.lower (Re.group m 2)) = Ok month_n ->
  1000 <= PyStr.int_digits (Re.group m 3) ->
  let fecha := PyStr.fmt_0d 2 (PyStr.int_digits (Re.group m 1)) ++ "/"
               ++ PyStr.fmt_0d 2 month_n ++ "/"
               ++ PyStr.str_int (PyStr.int_digits (Re.group m 3)) in
  let cuarto := (month_n - 1) / 3 + 1 in
  ddmmyyyy fecha = true
  /\ 1 <= cuarto <= 4
  /\ (exists out, transform_ingresos_detallado_data df = Ok out
                  /\ forall r, In r out -> Fecha r = CStr fecha /\ Cuarto r = CInt cuarto)
  /\ parse_date "al 15 de marzo de 2024" = Ok (CStr "15/03/2024", CInt 1).
Proof.
  intros Hrect Hw Ht Hs Hm Hy fecha cuarto.
  pose proof (month_map_range _ Hm) as Hmonth.
  destruct (ReFacts.search_from_sound _ _ _ Hs) as [q [s' Hat]].
  destruct (date_pat_groups _ _ Hat) as [Dd [Dl [_ [_ [Yd [Yl _]]]]]].
  apply int_digits_bound in Dd, Yd. rewrite Yl in Yd.
  assert (0 <= PyStr.int_digits (Re.group m 1) <= 99) as Hday.
  { destruct Dl as [D1 D2].
    assert (10 ^ Z.of_nat (String.length (Re.group m 1)) <= 10 ^ 2)
      by (apply Z.pow_le_mono_r; lia).
    lia. }
  assert (parse_date text = Ok (CStr fecha, CInt cuarto)) as Hp.
  { unfold parse_date, bind. rewrite Hs, Hm. reflexivity. }
  split; [| split; [| split]].
  - subst fecha. apply ddmmyyyy_parts.
    + now apply fmt_0d_two_digits.
    + apply fmt_0d_two_digits. lia.
    + apply str_int_four_digits. change (10 ^ Z.of_nat 4) with 10000 in Yd. lia.
  - now apply quarter_range.
  - destruct (transform_total Hrect Hw Ht Hp) as [out [Hout [Hd _]]].
    exists out. split; [exact Hout |].
    intros r Hr. rewrite Forall_forall in Hd.
    destruct (Hd r Hr) as [F [C _]]. now split.
  - vm_compute. reflexivity.
Qed.

Lemma transform_fecha_cuarto_witness :
  exists out,
    transform_ingresos_detallado_data
      (sample_sheet "Del 1 de enero al 15 de marzo de 2024") = Ok out
    /\ forall r, In r out -> Fecha r = CStr "15/03/2024" /\ Cuarto r = CInt 1.
Proof.
  destruct (@transform_fecha_cuarto
              (sample_sheet "Del 1 de enero al 15 de marzo de 2024")
              "Del 1 de enero al 15 de marzo de 2024 nan nan nan nan nan nan"
              [(3%nat, "2024"); (2%nat, "marzo"); (1%nat, "15")] 3
              (sample_sheet_rectangular _))
    as [_ [_ [H _]]].
  - simpl. lia.
  - vm_compute. reflexivity.
  - vm_compute. reflexivity.
  - vm_compute. reflexivity.
  - vm_compute. discriminate.
  - exact H.
Defined.

(** C6, as stated, fails for a year below 1000: the pattern takes four
    digits, [int] drops the leading zeros and the year is printed without
    padding, so the date is not of the form DD/MM/YYYY. *)
Lemma transform_fecha_year_0024 :
  exists text m out,
    date_range_str (sample_sheet "al 15 de marzo de 0024") = Ok text
    /\ Re.search date_pat text = Some m
    /\ getitem month_map (PyStr.lower (Re.group m 2)) = Ok 3
    /\ transform_ingresos_detallado_data (sample_sheet "al 15 de marzo de 0024") = Ok out
    /\ map Fecha out = [CStr "15/03/24"; CStr "15/03/24"; CStr "15/03/24"]
    /\ ddmmyyyy "15/03/24" = false.
Proof.
  eexists. eexists. eexists.
  split; [vm_compute; reflexivity |].
  split; [vm_compute; reflexivity |].
  split; [vm_compute; reflexivity |].
  split; [vm_compute; reflexivity |].
  split; vm_compute; reflexivity.
Qed.

(** C7. When the header text does not match the date pattern, the date
    block yields the empty string for both values without raising, and on
    a sheet of the report's layout the transform returns, with empty
    Fecha and Cuarto on every row of both windows. *)
Theorem transform_header_mismatch df text :
  rectangular df -> (8 <= ncols df)%nat ->
  date_range_str df = Ok text ->
  Re.search date_pat text = None ->
  parse_date text = Ok (CStr "", CStr "")
  /\ exists out, transform_ingresos_detallado_data df = Ok out
       /\ List.length out = (List.length (slice 7 44 (rows df))
                             + List.length (slice 45 76 (rows df)))%nat
       /\ forall r, In r out -> Fecha r = CStr "" /\ Cuarto r = CStr "".
Proof.
  intros Hrect Hw Ht Hs.
  assert (parse_date text = Ok (CStr "", CStr "")) as Hp
    by (unfold parse_date; now rewrite Hs).
  split; [exact Hp |].
  destruct (transform_total Hrect Hw Ht Hp) as [out [Hout [Hd Hlen]]].
  exists out. repeat split; auto;
    rewrite Forall_forall in Hd; destruct (Hd r H) as [F [C _]]; auto.
Qed.

Lemma transform_header_mismatch_witness :
  exists out,
    transform_ingresos_detallado_data (sample_sheet "Ejercicio fiscal 2024") = Ok out
    /\ List.length out = 3%nat
    /\ forall r, In r out -> Fecha r = CStr "" /\ Cuarto r = CStr "".
Proof.
  destruct (@transform_header_mismatch
              (sample_sheet "Ejercicio fiscal 2024")
              "Ejercicio fiscal 2024 nan nan nan nan nan nan"
              (sample_sheet_rectangular _))
    as [_ [out [H1 [H2 H3]]]].
  - simpl. lia.
  - vm_compute. reflexivity.
  - vm_compute. reflexivity.
  - exists out. repeat split; auto; apply H3; auto.
Defined.

(** C9. When the header text matches the date pattern but the month word,
    in lower case, is not a key of [month_map], the transform raises
    KeyError on that word; the empty-date fallback is not taken. *)
Theorem transform_unknown_month df text m :
  date_range_str df = Ok text ->
  Re.search date_pat text = Some m ->
  ~ In (PyStr.lower (Re.group m 2)) (map fst month_map) ->
  transform_ingresos_detallado_data df = Raise (KeyError (PyStr.lower (Re.group m 2))).
Proof.
  intros Ht Hs Hk.
  unfold transform_ingresos_detallado_data, bind. rewrite Ht.
  unfold parse_date, bind. rewrite Hs.
  now rewrite (getitem_missing _ _ Hk).
Qed.

Lemma transform_unknown_month_witness :
  transform_ingresos_detallado_data (sample_sheet "Del 1 de Ene al 31 de Mar de 2024")
  = Raise (KeyError "mar").
Proof.
  apply (@transform_unknown_month
           (sample_sheet "Del 1 de Ene al 31 de Mar de 2024")
           "Del 1 de Ene al 31 de Mar de 2024 nan nan nan nan nan nan"
           [(3%nat, "2024"); (2%nat, "Mar"); (1%nat, "31")]).
  - vm_compute. reflexivity.
  - vm_compute. reflexivity.
  - vm_compute. intuition discriminate.
Defined.

(** ** Transform: the hierarchical codes *)

Section Anchored.
Import Re.

Lemma search_from_bol r s : forall p, search_from (Seq Bol r) (S p) s = None.
Proof. induction s as [| c s IH]; intros p; simpl; auto. Qed.

(** A pattern that starts with [^] can only match at offset 0. *)
Lemma search_bol r s : search (Seq Bol r) s = match_at (Seq Bol r) 0 s.
Proof.
  unfold search. destruct s as [| c s]; simpl search_from;
    destruct (match_at (Seq Bol r) 0 _); auto using search_from_bol.
Qed.

(** A greedy unbounded repetition in front of something that cannot start
    with a character of the class takes the whole run. *)
Lemma rep_then_stop (A : Type) k (cont : nat -> string -> option A) s' :
  (forall q c t, in_class k c = true -> cont q (String c t) = None) ->
  match s' with
  | String c _ => in_class k c = false
  | EmptyString => True
  end ->
  forall ds lo p,
    PyStr.all_chars (in_class k) ds = true ->
    rep k lo None p (ds ++ s') cont
    = if (lo <=? String.length ds)%nat then cont (p + String.length ds)%nat s' else None.
Proof.
  intros Hrej Hs'. induction ds as [| c ds IH]; intros lo p Hall.
  - simpl String.length. rewrite Nat.add_0_r. simpl append.
    destruct s' as [| c t]; simpl.
    + now destruct lo.
    + rewrite Hs'. simpl. now destruct lo.
  - simpl in Hall. apply andb_prop in Hall. destruct Hall as [Hc Hall].
    simpl. rewrite Hc. simpl.
    rewrite (IH (Nat.pred lo) (S p) Hall).
    replace (S p + String.length ds)%nat with (p + S (String.length ds))%nat by lia.
    destruct lo as [| lo]; simpl.
    + destruct (cont (p + S (String.length ds))%nat s') eqn:E; auto.
    + destruct (lo <=? String.length ds)%nat; auto.
      now destruct (cont (p + S (String.length ds))%nat s').
Qed.

End Anchored.

Lemma substring_0_0 s : substring 0 0 s = "".
Proof. now destruct s. Qed.

Lemma extract_prim s :
  str_extract prim_pat s
  = match s with
    | String c (String d _) =>
        if PyStr.is_upper_az c && Ascii.eqb "." d
        then CStr (String c (String d EmptyString)) else CNaN
    | _ => CNaN
    end.
Proof.
  unfold str_extract, prim_pat. rewrite search_bol. unfold Re.match_at.
  destruct s as [| c [| d rest]];
    cbn [Re.run Re.pos Re.rest Re.groups Re.in_class].
  - reflexivity.
  - now destruct (PyStr.in_range _ _ c).
  - change (PyStr.in_range (PyStr.code "A") (PyStr.code "Z") c) with (PyStr.is_upper_az c).
    destruct (PyStr.is_upper_az c); [| reflexivity].
    destruct (Ascii.eqb "." d); [| reflexivity].
    cbn [andb Re.group Nat.eqb Nat.sub substring]. now rewrite substring_0_0.
Qed.

Lemma extract_prim_iff s p :
  str_extract prim_pat s = CStr p <-> starts_upper_period s p.
Proof.
  rewrite extract_prim. unfold starts_upper_period. split.
  - destruct s as [| c [| d rest]]; try discriminate.
    destruct (PyStr.is_upper_az c) eqn:U; [| discriminate].
    destruct (Ascii.eqb_spec "."%char d) as [<- |]; [| discriminate].
    simpl. intros [= <-]. exists c, rest. auto.
  - intros [c [rest [-> [U ->]]]]. rewrite U. reflexivity.
Qed.

Lemma paren_not_digit c : PyStr.is_digit c = true -> Ascii.eqb ")" c = false.
Proof.
  intros H. destruct (Ascii.eqb_spec ")"%char c) as [<- |]; [discriminate | reflexivity].
Qed.

Lemma length_append_str a b :
  String.length (a ++ b) = (String.length a + String.length b)%nat.
Proof. induction a; simpl; congruence. Qed.

Lemma append_assoc_str a b c : (a ++ b) ++ c = a ++ (b ++ c).
Proof. induction a; simpl; congruence. Qed.

Lemma extract_sec_iff s p :
  str_extract sec_pat s = CStr p <-> starts_lower_digits_paren s p.
Proof.
  unfold str_extract, starts_lower_digits_paren, sec_pat. rewrite search_bol. split.
  - destruct (Re.match_at _ 0 s) as [m |] eqn:M; [| discriminate].
    intros [= <-].
    unfold Re.match_at in M. apply ReFacts.run_sound in M.
    destruct M as [st' [H G]]. injection G as <-.
    unfold Re.seqs in H. cbn [Re.sem] in H.
    destruct H as [s0 [[_ ->] [s1 [[s2 [[c [Hc [E1 [P1 G1]]]]
                      [s3 [[ds [E2 [Hds [Hlo [_ [P2 G2]]]]]]
                      [s4 [[c' [Hc' [E3 [P3 G3]]]] ->]]]]]] [P4 [R4 G4]]]]]].
    cbn [Re.in_class] in Hc'. apply Ascii.eqb_eq in Hc'. subst c'.
    cbn [Re.rest Re.pos Re.groups] in *.
    exists c, ds, (Re.rest s4).
    assert (s = String c (ds ++ String ")" (Re.rest s4))) as Es
      by (rewrite E1, E2, E3; reflexivity).
    repeat split; auto.
    + intros ->. simpl in Hlo. lia.
    + rewrite G4. simpl.
      replace (Re.pos s4 - 0)%nat with (String.length (String c (ds ++ ")")))
        by (simpl; rewrite length_append_str, P3, P2, P1; simpl; lia).
      rewrite Es at 1.
      change (String c (ds ++ String ")" (Re.rest s4)))
        with (String c (ds ++ (")" ++ Re.rest s4))).
      rewrite <- append_assoc_str.
      change (String c ((ds ++ ")") ++ Re.rest s4))
        with (String c (ds ++ ")") ++ Re.rest s4).
      now rewrite ReFacts.substring_prefix.
  - intros [c [ds [rest [-> [Hc [Hne [Hds ->]]]]]]].
    unfold Re.match_at, Re.seqs. cbn [Re.run Re.pos Re.rest Re.groups].
    change (Re.in_class (Re.Range "a" "z") c) with (PyStr.is_lower_az c). rewrite Hc.
    rewrite rep_then_stop with (s' := String ")" rest); auto.
    + destruct ds as [| d ds]; [congruence |].
      simpl Nat.leb. cbn [Re.in_class]. rewrite Ascii.eqb_refl.
      simpl Re.groups. cbn [Re.group Nat.eqb]. f_equal.
      replace (S (1 + String.length (String d ds)) - 0)%nat
        with (String.length (String c (String d ds ++ ")")))
        by (simpl; rewrite length_append_str; simpl; lia).
      change (String c (String d ds ++ String ")" rest))
        with (String c (String d ds ++ (")" ++ rest))).
      rewrite <- append_assoc_str.
      change (String c ((String d ds ++ ")") ++ rest))
        with (String c (String d ds ++ ")") ++ rest).
      now rewrite ReFacts.substring_prefix.
    + intros q x t Hx. cbn [Re.rest Re.in_class].
      simpl in Hx. now rewrite (paren_not_digit _ Hx).
Qed.

Lemma str_extract_cases pat s :
  str_extract pat s = CNaN \/ exists p, str_extract pat s = CStr p.
Proof. unfold str_extract. destruct (Re.search pat s); eauto. Qed.

(** C5. In every row the transform returns, ClavePrimaria is a non-empty
    string exactly when the text of Concepto starts with an upper-case
    letter and a period, ClaveSecundaria exactly when it starts with a
    lower-case letter, one or more digits and a closing parenthesis; the
    value is then that prefix, and NaN otherwise. *)
Theorem transform_claves df out r :
  transform_ingresos_detallado_data df = Ok out -> In r out ->
  let s := str_cell (Concepto r) in
  (non_empty (ClavePrimaria r) <-> exists p, starts_upper_period s p)
  /\ (forall p, starts_upper_period s p -> ClavePrimaria r = CStr p)
  /\ (~ (exists p, starts_upper_period s p) -> ClavePrimaria r = CNaN)
  /\ (non_empty (ClaveSecundaria r) <-> exists p, starts_lower_digits_paren s p)
  /\ (forall p, starts_lower_digits_paren s p -> ClaveSecundaria r = CStr p)
  /\ (~ (exists p, starts_lower_digits_paren s p) -> ClaveSecundaria r = CNaN).
Proof.
  intros Ht Hin s.
  destruct (transform_rows _ Ht) as [text [f [c [_ [_ Hd]]]]].
  rewrite Forall_forall in Hd. destruct (Hd r Hin) as [_ [_ [Hp Hs]]].
  fold s in Hp, Hs. rewrite Hp, Hs.
  repeat split.
  - intros [p [E _]]. exists p. now apply extract_prim_iff.
  - intros [p H]. exists p. split; [now apply extract_prim_iff |].
    destruct H as [c0 [rest [_ [_ ->]]]]. discriminate.
  - intros p H. now apply extract_prim_iff.
  - intros H. destruct (str_extract_cases prim_pat s) as [E | [p E]]; [exact E |].
    exfalso. apply H. exists p. now apply extract_prim_iff.
  - intros [p [E _]]. exists p. now apply extract_sec_iff.
  - intros [p H]. exists p. split; [now apply extract_sec_iff |].
    destruct H as [c0 [ds [rest [_ [_ [_ [_ ->]]]]]]]. discriminate.
  - intros p H. now apply extract_sec_iff.
  - intros H. destruct (str_extract_cases sec_pat s) as [E | [p E]]; [exact E |].
    exfalso. apply H. exists p. now apply extract_sec_iff.
Qed.

Lemma transform_claves_witness :
  exists out r,
    transform_ingresos_detallado_data (sample_sheet "al 15 de marzo de 2024") = Ok out
    /\ In r out
    /\ Concepto r = CStr "a1) Impuestos sobre los ingresos"
    /\ ClaveSecundaria r = CStr "a1)"
    /\ ClavePrimaria r = CNaN.
Proof.
  destruct (transform_ingresos_detallado_data (sample_sheet "al 15 de marzo de 2024"))
    as [out |] eqn:E; [| vm_compute in E; discriminate].
  assert (Hin : In (nth 1 out impuestos) out)
    by (vm_compute in E; injection E as <-; simpl; auto).
  assert (Hc : Concepto (nth 1 out impuestos) = CStr "a1) Impuestos sobre los ingresos")
    by (vm_compute in E; injection E as <-; reflexivity).
  destruct (@transform_claves _ out (nth 1 out impuestos) E Hin)
    as [_ [_ [Hp [_ [Hs _]]]]].
  rewrite Hc in Hp, Hs. simpl str_cell in Hp, Hs.
  exists out, (nth 1 out impuestos). repeat split; auto.
  - apply Hs. exists "a"%char, "1", " Impuestos sobre los ingresos".
    repeat split; auto. discriminate.
  - apply Hp. intros [p [c0 [rest [H _]]]]. discriminate.
Defined.

(** ** Load *)

Module SqlFacts.
Import Sql.

Lemma do_update_same t r : id t = id r -> do_update t r = r.
Proof. unfold do_update. destruct r; simpl. now intros ->. Qed.

Lemma put_In r rel : In r (put r rel).
Proof.
  induction rel as [| t rel IH]; simpl.
  - now left.
  - destruct (String.eqb_spec (id t) (id r)) as [E | _].
    + left. now apply do_update_same.
    + now right.
Qed.

Lemma put_keeps r t rel : In t rel -> id t <> id r -> In t (put r rel).
Proof.
  induction rel as [| u rel IH]; simpl; [tauto |].
  intros [-> | Hin] Hne.
  - destruct (String.eqb_spec (id t) (id r)); [contradiction | now left].
  - destruct (String.eqb (id u) (id r)); right; auto.
Qed.

Lemma put_ids r rel :
  ids (put r rel) = if has_id (id r) rel then ids rel else (ids rel ++ [id r])%list.
Proof.
  unfold ids, has_id. induction rel as [| t rel IH]; simpl; [reflexivity |].
  destruct (String.eqb (id t) (id r)) eqn:E; simpl.
  - reflexivity.
  - rewrite IH. now destruct (existsb _ rel).
Qed.

Lemma has_id_In i rel : has_id i rel = true <-> In i (ids rel).
Proof.
  unfold has_id, ids. rewrite existsb_exists, in_map_iff.
  split; intros [t [H1 H2]]; exists t.
  - apply String.eqb_eq in H2. auto.
  - split; [auto | now apply String.eqb_eq].
Qed.

Lemma put_pk r rel : pk_unique rel -> pk_unique (put r rel).
Proof.
  unfold pk_unique. intros H. rewrite put_ids.
  destruct (has_id (id r) rel) eqn:E; [exact H |].
  apply NoDup_app; repeat split; auto.
  - repeat constructor. simpl. tauto.
  - intros i Hi [<- | []].
    apply has_id_In in Hi. congruence.
Qed.

Lemma put_ids_In r rel i : In i (ids (put r rel)) <-> In i (ids rel) \/ i = id r.
Proof.
  rewrite put_ids. destruct (has_id (id r) rel) eqn:E.
  - apply has_id_In in E. split; [tauto | intros [H | ->]; auto].
  - rewrite in_app_iff. simpl. intuition.
Qed.

(** Writing a record that is already stored as it is changes nothing. *)
Lemma put_fix r rel : pk_unique rel -> In r rel -> put r rel = rel.
Proof.
  unfold pk_unique, ids. induction rel as [| t rel IH]; simpl; [tauto |].
  intros Hpk Hin. inversion Hpk as [| ? ? Hnot Hrest]; subst.
  destruct (String.eqb_spec (id t) (id r)) as [E | Hne].
  - destruct Hin as [-> | Hin].
    + now rewrite do_update_same.
    + exfalso. apply Hnot. rewrite E. now apply in_map.
  - destruct Hin as [-> | Hin]; [congruence |].
    now rewrite IH.
Qed.

Lemma put_all_keeps rs : forall rel t,
  In t rel -> (forall r, In r rs -> id r <> id t) -> In t (put_all rs rel).
Proof.
  induction rs as [| r rs IH]; intros rel t Hin Hne; simpl; auto.
  apply IH.
  - apply put_keeps; auto. intros E. apply (Hne r); simpl; auto.
  - intros r' Hr'. apply Hne. now right.
Qed.

Lemma put_all_spec rs : forall rel,
  NoDup (ids rs) -> pk_unique rel ->
  pk_unique (put_all rs rel)
  /\ (forall r, In r rs -> In r (put_all rs rel))
  /\ (forall i, In i (ids (put_all rs rel)) <-> In i (ids rel) \/ In i (ids rs)).
Proof.
  induction rs as [| r rs IH]; intros rel Hnd Hpk; simpl.
  - repeat split; auto; tauto.
  - inversion Hnd as [| ? ? Hnot Hrest]; subst.
    destruct (IH (put r rel) Hrest (put_pk r Hpk)) as [H1 [H2 H3]].
    repeat split; auto.
    + intros r' [<- | Hr']; auto.
      apply put_all_keeps; [apply put_In |].
      intros r' Hr' E. apply Hnot. rewrite <- E. now apply in_map.
    + intros H. apply H3 in H. rewrite put_ids_In in H. intuition.
    + intros H. apply H3. rewrite put_ids_In. intuition.
Qed.

Lemma put_all_fix rs : forall rel,
  pk_unique rel -> (forall r, In r rs -> In r rel) -> put_all rs rel = rel.
Proof.
  induction rs as [| r rs IH]; intros rel Hpk Hin; simpl; auto.
  rewrite put_fix; auto.
  - apply IH; auto. intros r' Hr'. apply Hin. now right.
  - apply Hin. now left.
Qed.

Lemma count_id_unique rel i :
  pk_unique rel -> (count_id i rel <= 1)%nat /\ (In i (ids rel) -> count_id i rel = 1%nat).
Proof.
  unfold pk_unique, ids, count_id.
  induction rel as [| t rel IH]; simpl; intros Hpk.
  - split; [lia | tauto].
  - inversion Hpk as [| ? ? Hnot Hrest]; subst.
    destruct (IH Hrest) as [Hle Heq].
    destruct (String.eqb_spec (id t) i) as [E | Hne]; simpl.
    + assert (List.length (filter (fun u => String.eqb (id u) i) rel) = 0%nat) as Hz.
      { destruct (filter (fun u => String.eqb (id u) i) rel) as [| u l] eqn:F; auto.
        exfalso. apply Hnot.
        assert (In u (filter (fun u => String.eqb (id u) i) rel)) as Hu
          by (rewrite F; now left).
        apply filter_In in Hu. destruct Hu as [Hu Hi].
        apply String.eqb_eq in Hi. rewrite E, <- Hi. now apply in_map. }
      rewrite Hz. split; auto.
    + split; auto. intros [H | H]; [contradiction | auto].
Qed.

Section Storage.
Variable accepts : tuple -> bool.

(** Whether the upsert command goes through depends on its rows only, and
    when it does it writes them one by one. *)
Lemma upsert_rows_ok rs : forall touched rel rel1,
  upsert_rows accepts rs touched rel = Ok rel1 ->
  rel1 = put_all rs rel
  /\ (forall rel', upsert_rows accepts rs touched rel' = Ok (put_all rs rel'))
  /\ NoDup (ids rs)
  /\ (forall i, In i (ids rs) -> ~ In i touched).
Proof.
  induction rs as [| r rs IH]; intros touched rel rel1 H; simpl in H.
  - injection H as <-. repeat split; auto. constructor.
  - destruct (accepts r) eqn:Ha; [| discriminate]. simpl in H.
    destruct (existsb (String.eqb (id r)) touched) eqn:Ht; [discriminate |].
    destruct (IH _ _ _ H) as [H1 [H2 [H3 H4]]].
    assert (~ In (id r) touched) as Hr.
    { intros Hin. assert (existsb (String.eqb (id r)) touched = true); [| congruence].
      apply existsb_exists. exists (id r). split; auto. apply String.eqb_refl. }
    repeat split; auto.
    + intros rel'. simpl. rewrite Ha, Ht. simpl. apply H2.
    + simpl. constructor; auto. intros Hin. apply (H4 _ Hin). now left.
    + simpl. intros i [<- | Hi]; auto.
      intros Hin. apply (H4 _ Hi). now right.
Qed.

Lemma single_load_cases df db :
  (exists e, single_load accepts df db = (db, Raise e))
  \/ (df <> [] /\ NoDup (ids df)
      /\ single_load accepts df db = (put_all df db, Ok tt)
      /\ forall db', single_load accepts df db' = (put_all df db', Ok tt)).
Proof.
  unfold single_load, with_connection, and_then, execute, commit, upsert, create_all.
  destruct df as [| r rs]; cbn [work committed reraise].
  - left. eauto.
  - destruct (upsert_rows accepts (r :: rs) [] db) as [rel1 | e] eqn:U;
      cbn [work committed reraise].
    + right. destruct (upsert_rows_ok _ _ _ U) as [-> [H2 [H3 _]]].
      repeat split; auto; try discriminate.
      intros db'. rewrite H2. reflexivity.
    + left. eauto.
Qed.

(** C1. Loading a row set with the upsert a second time changes nothing:
    the relation after the second call is the relation after the first,
    record by record and column by column, and the second call ends as
    the first did. The primary key stays unique, so every key of the
    relation has exactly one record; and when the load goes through,
    every input row is stored as given and every key of the input or of
    the earlier contents has exactly one record. *)
Theorem single_load_idempotent df db :
  pk_unique db ->
  let once := single_load accepts df db in
  let twice := single_load accepts df (fst once) in
  fst twice = fst once
  /\ snd twice = snd once
  /\ pk_unique (fst once)
  /\ (forall i, In i (ids (fst once)) -> count_id i (fst once) = 1%nat)
  /\ (snd once = Ok tt ->
      (forall r, In r df -> In r (fst once))
      /\ forall i, In i (ids df) \/ In i (ids db) -> count_id i (fst once) = 1%nat).
Proof.
  intros Hpk once twice. subst twice once.
  destruct (single_load_cases df db) as [[e E] | [Hne [Hnd [E Hall]]]]; rewrite E;
    cbn [fst snd].
  - rewrite E. cbn [fst snd]. repeat split; auto.
    + intros i. now apply count_id_unique.
    + discriminate.
    + discriminate.
  - destruct (@put_all_spec df db Hnd Hpk) as [Hpk1 [Hin Hids]].
    rewrite Hall. cbn [fst snd].
    rewrite (@put_all_fix df _ Hpk1 Hin).
    repeat split; auto.
    + intros i. now apply count_id_unique.
    + intros i Hi. apply count_id_unique; auto. apply Hids. tauto.
Qed.

Lemma insert_rows_ok rs : forall rel w,
  insert_rows accepts rs rel = (w, Ok tt) -> w = (rel ++ rs)%list.
Proof.
  induction rs as [| r rs IH]; intros rel w H; simpl in H.
  - injection H as <-. now rewrite app_nil_r.
  - destruct (accepts r); [| discriminate]. simpl in H.
    destruct (has_id (id r) rel); [discriminate |].
    apply IH in H. now rewrite <- app_assoc in H.
Qed.

(** When the overwrite goes through, the relation holds the input rows
    and nothing else. *)
Lemma bulk_load_replaces df db :
  snd (bulk_load accepts df db) = Ok tt -> fst (bulk_load accepts df db) = df.
Proof.
  unfold bulk_load, with_connection, and_then, execute, commit, truncate, insert, create_all.
  cbn [work committed].
  destruct df as [| r rs]; [discriminate |].
  destruct (insert_rows accepts (r :: rs) []) as [w [[] | e]] eqn:I;
    cbn [work committed reraise fst snd]; [| discriminate].
  intros _. now apply insert_rows_ok in I.
Qed.

(** C3. When the overwrite raises, the relation afterwards is the
    relation before the call: the TRUNCATE and the rows written before
    the failure belonged to a transaction that was never committed, and
    closing the connection rolls it back. *)
Theorem bulk_load_atomic df db e :
  snd (bulk_load accepts df db) = Raise e -> fst (bulk_load accepts df db) = db.
Proof.
  unfold bulk_load, with_connection, and_then, execute, commit, truncate, create_all.
  cbn [work committed].
  destruct (insert accepts df []) as [w [[] | e']]; cbn [work committed reraise fst snd].
  - discriminate.
  - reflexivity.
Qed.

End Storage.

Lemma single_load_idempotent_witness :
  let db := [rec "11" "A. Impuestos" 1; rec "22" "B. Cuotas" 2] in
  let df := [rec "11" "A. Impuestos" 5; rec "33" "C. Contribuciones" 3] in
  pk_unique db
  /\ fst (single_load (fun _ => true) df db)
     = [rec "11" "A. Impuestos" 5; rec "22" "B. Cuotas" 2; rec "33" "C. Contribuciones" 3]
  /\ fst (single_load (fun _ => true) df (fst (single_load (fun _ => true) df db)))
     = fst (single_load (fun _ => true) df db).
Proof.
  assert (Hpk : pk_unique [rec "11" "A. Impuestos" 1; rec "22" "B. Cuotas" 2]).
  { unfold pk_unique. simpl. repeat constructor; simpl; intuition discriminate. }
  split; [exact Hpk |].
  split; [vm_compute; reflexivity |].
  apply (@single_load_idempotent (fun _ => true)
           [rec "11" "A. Impuestos" 5; rec "33" "C. Contribuciones" 3]
           [rec "11" "A. Impuestos" 1; rec "22" "B. Cuotas" 2] Hpk).
Defined.

(** An overwrite whose second row repeats the key of the first: the
    table is truncated, the first row is written, the second violates the
    primary key. *)
Lemma bulk_load_atomic_witness :
  let db := [rec "11" "A. Impuestos" 1; rec "22" "B. Cuotas" 2] in
  let df := [rec "33" "C. Contribuciones" 3; rec "33" "C. Contribuciones" 4] in
  insert (fun _ => true) df [] =
    ([rec "33" "C. Contribuciones" 3],
     Raise (OtherError "duplicate key value violates unique constraint"))
  /\ fst (bulk_load (fun _ => true) df db) = db.
Proof.
  split; [vm_compute; reflexivity |].
  apply (@bulk_load_atomic (fun _ => true)
           [rec "33" "C. Contribuciones" 3; rec "33" "C. Contribuciones" 4]
           [rec "11" "A. Impuestos" 1; rec "22" "B. Cuotas" 2]
           (RuntimeError "Bulk load failed: duplicate key value violates unique constraint")).
  vm_compute. reflexivity.
Defined.

End SqlFacts.

(** * Further properties *)

(** ** Extract: the other paths *)

(** X1. Any source other than "s3" raises ValueError, with or without a
    bucket name, and nothing is asked of the outside world. *)
Theorem extract_invalid_source w year quarter source bucket_name :
  source <> "s3" ->
  extract_ingresos_detallado_data w year quarter source bucket_name
  = ([], Raise (ValueError "Invalid source. Use 's3'")).
Proof.
  intros H. unfold extract_ingresos_detallado_data.
  destruct (String.eqb_spec source "s3"); [contradiction | reflexivity].
Qed.

Lemma extract_invalid_source_witness :
  extract_ingresos_detallado_data no_such_key 2024 "Q1" "local" None
  = ([], Raise (ValueError "Invalid source. Use 's3'")).
Proof.
  apply (@extract_invalid_source no_such_key 2024 "Q1" "local" None).
  discriminate.
Defined.

Lemma read_sheet_cases w bucket key :
  (exists e, read_fails w bucket key e
             /\ snd (read_sheet w bucket key) = Raise e
             /\ exists io, fst (read_sheet w bucket key) = io
                           /\ incl io (read_calls bucket key))
  \/ (exists body df,
        s3_client w = Ok tt /\ s3_get_object w bucket key = Ok body
        /\ read_excel w body "F5 EAI" = Ok df
        /\ read_sheet w bucket key = (read_calls bucket key, Ok df)).
Proof.
  unfold read_sheet, read_fails, read_calls.
  destruct (s3_client w) as [[] | e] eqn:C.
  - destruct (s3_get_object w bucket key) as [body | e] eqn:G.
    + destruct (read_excel w body "F5 EAI") as [df | e] eqn:R.
      * right. exists body, df. auto.
      * left. exists e. split; [right; right; eauto |].
        split; [reflexivity |]. eexists. split; [reflexivity |]. apply incl_refl.
    + left. exists e. split; [right; left; auto |].
      split; [reflexivity |]. eexists. split; [reflexivity |].
      intros x [<- | [<- | []]]; simpl; auto.
  - left. exists e. split; [left; auto |].
    split; [reflexivity |]. eexists. split; [reflexivity |].
    intros x [<- | []]; simpl; auto.
Qed.

(** X2. With source "s3" and a bucket name the extractor always returns.
    The provenance is [None], with the empty frame, exactly when a call
    inside the [try] raised; otherwise it is the frame parsed from the
    object together with "s3://{bucket}/{key}". *)
Theorem extract_result_with_bucket w year quarter bucket :
  let key := s3_key year quarter in
  exists df prov,
    snd (extract_ingresos_detallado_data w year quarter "s3" (Some bucket)) = Ok (df, prov)
    /\ ((prov = None /\ df = empty_frame /\ exists e, read_fails w bucket key e)
        \/ (prov = Some ("s3://" ++ bucket ++ "/" ++ key)
            /\ (forall e, ~ read_fails w bucket key e)
            /\ exists body, s3_get_object w bucket key = Ok body
                            /\ read_excel w body "F5 EAI" = Ok df)).
Proof.
  intros key. unfold extract_ingresos_detallado_data. simpl String.eqb. cbv iota.
  fold key.
  destruct (read_sheet_cases w bucket key)
    as [[e [F [E _]]] | [body [df [C [G [R E]]]]]].
  - destruct (read_sheet w bucket key) as [io [df | e']]; simpl in E; [discriminate |].
    exists empty_frame, None. split; [reflexivity |]. left. eauto.
  - rewrite E. exists df, (Some ("s3://" ++ bucket ++ "/" ++ key)).
    split; [reflexivity |]. right. split; [reflexivity |]. split; [| eauto].
    intros e [H | [[_ H] | [_ [body' [H1 H2]]]]]; congruence.
Qed.

(** X3. What the extractor asks of the outside world: the client first,
    then at most the object at "finanzas/Ingresos_Detallado/raw/" plus the
    file name in the given bucket, then at most the sheet "F5 EAI"; an
    error is logged exactly when a call raised. No other object and no
    other sheet is ever read. *)
Theorem extract_calls w year quarter bucket :
  let key := s3_key year quarter in
  let io := fst (extract_ingresos_detallado_data w year quarter "s3" (Some bucket)) in
  hd_error io = Some S3Client
  /\ (forall b k, In (S3GetObject b k) io -> b = bucket /\ k = key)
  /\ (forall sh, In (ReadExcel sh) io -> sh = "F5 EAI")
  /\ ((exists msg, In (LogError msg) io) <-> exists e, read_fails w bucket key e).
Proof.
  intros key io. subst io.
  unfold extract_ingresos_detallado_data. simpl String.eqb. cbv iota. fold key.
  unfold read_sheet, read_fails.
  destruct (s3_client w) as [[] | e] eqn:C;
    [destruct (s3_get_object w bucket key) as [body | e] eqn:G;
     [destruct (read_excel w body "F5 EAI") as [df | e] eqn:R |] |];
    cbn [fst snd app hd_error]; (split; [reflexivity |]).
  - split; [| split].
    + intros b k [H | [H | [H | []]]]; try discriminate. injection H as <- <-. auto.
    + intros sh [H | [H | [H | []]]]; try discriminate. now injection H as <-.
    + split.
      * intros [msg [H | [H | [H | []]]]]; discriminate.
      * intros [e [H | [[_ H] | [_ [body' [H1 H2]]]]]]; congruence.
  - split; [| split].
    + intros b k [H | [H | [H | [H | []]]]]; try discriminate. injection H as <- <-. auto.
    + intros sh [H | [H | [H | [H | []]]]]; try discriminate. now injection H as <-.
    + split; [intros _ | intros _; eexists; simpl; eauto 6].
      exists e. right. right. eauto.
  - split; [| split].
    + intros b k [H | [H | [H | []]]]; try discriminate. injection H as <- <-. auto.
    + intros sh [H | [H | [H | []]]]; discriminate.
    + split; [intros _ | intros _; eexists; simpl; eauto 6].
      exists e. right. left. auto.
  - split; [| split].
    + intros b k [H | [H | []]]; discriminate.
    + intros sh [H | [H | []]]; discriminate.
    + split; [intros _ | intros _; eexists; simpl; eauto 6].
      exists e. left. auto.
Qed.

Lemma append_cancel_l a x y : a ++ x = a ++ y -> x = y.
Proof. induction a as [| c a IH]; simpl; [auto | intros [= H]; auto]. Qed.

Lemma append_cancel_r s : forall x y, x ++ s = y ++ s -> x = y.
Proof.
  induction x as [| c x IH]; intros y H.
  - destruct y as [| d y]; [reflexivity |].
    apply (f_equal String.length) in H. simpl in H.
    rewrite length_append_str in H. lia.
  - destruct y as [| d y].
    + apply (f_equal String.length) in H. simpl in H.
      rewrite length_append_str in H. lia.
    + simpl in H. injection H as <- H. f_equal. now apply IH.
Qed.

Lemma str_int_inj a b : PyStr.str_int a = PyStr.str_int b -> a = b.
Proof.
  intros H. pose proof (str_int_value a) as Va. rewrite H, str_int_value in Va.
  now injection Va.
Qed.

(** X4. For one quarter, different years never name the same object. *)
Theorem s3_key_year_injective y1 y2 quarter :
  y1 <> y2 -> s3_key y1 quarter <> s3_key y2 quarter.
Proof.
  intros Hne H. apply Hne. unfold s3_key, file_name in H.
  apply append_cancel_l in H. apply append_cancel_l in H.
  apply append_cancel_l in H. apply append_cancel_r in H.
  now apply str_int_inj.
Qed.

Lemma s3_key_year_injective_witness :
  s3_key 2023 "Q4" <> s3_key 2024 "Q4".
Proof. apply (@s3_key_year_injective 2023 2024 "Q4"). lia. Defined.

(** X5. The quarter may be given as Q1..Q4 or already as the code of the
    file name: translating it first changes nothing, so "Q1" and "1T"
    name the same object. Any other text is used as it is. *)
Theorem s3_key_quarter_alias year quarter :
  s3_key year (get reverse_quarter_map quarter quarter) = s3_key year quarter
  /\ (~ In quarter ["Q1"; "Q2"; "Q3"; "Q4"] ->
      s3_key year quarter
      = "finanzas/Ingresos_Detallado/raw/F5_Edo_Ana_Ing_Det_LDF_"
        ++ quarter ++ PyStr.str_int year ++ ".xlsx").
Proof.
  unfold s3_key, file_name, get, reverse_quarter_map. cbn [getitem].
  split.
  - destruct (String.eqb_spec "Q1" quarter) as [<- | N1]; [reflexivity |].
    destruct (String.eqb_spec "Q2" quarter) as [<- | N2]; [reflexivity |].
    destruct (String.eqb_spec "Q3" quarter) as [<- | N3]; [reflexivity |].
    destruct (String.eqb_spec "Q4" quarter) as [<- | N4]; [reflexivity |].
    destruct (String.eqb_spec "Q1" quarter); [contradiction |].
    destruct (String.eqb_spec "Q2" quarter); [contradiction |].
    destruct (String.eqb_spec "Q3" quarter); [contradiction |].
    destruct (String.eqb_spec "Q4" quarter); [contradiction |].
    reflexivity.
  - intros H. simpl in H.
    destruct (String.eqb_spec "Q1" quarter); [tauto |].
    destruct (String.eqb_spec "Q2" quarter); [tauto |].
    destruct (String.eqb_spec "Q3" quarter); [tauto |].
    destruct (String.eqb_spec "Q4" quarter); [tauto |].
    reflexivity.
Qed.

(** ** Transform: shape of the sheet and of the result *)

(** X6. A sheet with fewer than four rows has no header row: the transform
    raises IndexError before anything else. *)
Theorem transform_short_sheet df :
  (List.length (rows df) < 4)%nat ->
  transform_ingresos_detallado_data df
  = Raise (IndexError "single positional indexer is out-of-bounds").
Proof.
  intros H. unfold transform_ingresos_detallado_data, date_range_str, iloc_row, bind.
  assert (nth_error (rows df) 3 = None) as -> by (apply nth_error_None; lia).
  reflexivity.
Qed.

Lemma transform_short_sheet_witness :
  transform_ingresos_detallado_data
    {| ncols := 8; rows := [blank_row; blank_row; header_row "al 15 de marzo de 2024"] |}
  = Raise (IndexError "single positional indexer is out-of-bounds").
Proof. apply transform_short_sheet. simpl. lia. Defined.

(** X7. The frame a failed extraction hands over makes the transform
    raise: the soft failure of the extractor becomes an IndexError one
    step later. *)
Theorem failed_extract_then_transform w year quarter bucket e :
  read_fails w bucket (s3_key year quarter) e ->
  exists df,
    snd (extract_ingresos_detallado_data w year quarter "s3" (Some bucket)) = Ok (df, None)
    /\ transform_ingresos_detallado_data df
       = Raise (IndexError "single positional indexer is out-of-bounds").
Proof.
  intros H. apply read_fails_raises in H.
  unfold extract_ingresos_detallado_data. simpl String.eqb. cbv iota.
  destruct (read_sheet w bucket (s3_key year quarter)) as [io [df | e']];
    simpl in H; [discriminate |].
  exists empty_frame. split; reflexivity.
Qed.

Lemma failed_extract_then_transform_witness :
  exists df,
    snd (extract_ingresos_detallado_data no_such_key 2024 "Q1" "s3" (Some "finanzas-nl"))
      = Ok (df, None)
    /\ transform_ingresos_detallado_data df
       = Raise (IndexError "single positional indexer is out-of-bounds").
Proof.
  apply (@failed_extract_then_transform no_such_key 2024 "Q1" "finanzas-nl"
           (OtherError "NoSuchKey")).
  right; left; split; reflexivity.
Defined.

Lemma getitem_raise (V : Type) (d : list (string * V)) key e :
  getitem d key = Raise e -> e = KeyError key /\ ~ In key (map fst d).
Proof.
  induction d as [| [k v] d IH]; simpl.
  - intros [= <-]. auto.
  - destruct (String.eqb_spec k key) as [-> | Hne]; [discriminate |].
    intros H. destruct (IH H) as [-> Hn]. split; [reflexivity |].
    intros [E | Hin]; auto.
Qed.

Lemma parse_date_raise text e :
  parse_date text = Raise e ->
  exists key, e = KeyError key /\ ~ In key (map fst month_map).
Proof.
  unfold parse_date, bind.
  destruct (Re.search date_pat text) as [m |]; [| discriminate].
  destruct (getitem month_map (PyStr.lower (Re.group m 2))) as [v | e'] eqn:G;
    [discriminate |].
  intros [= <-]. apply getitem_raise in G. destruct G as [-> Hn]. eauto.
Qed.

Lemma table_narrow df r0 r1 f c :
  (ncols df < 8)%nat ->
  exists msg, table (iloc_values df r0 r1 1 8) f c = Raise (ValueError msg).
Proof.
  intros H. unfold table, iloc_values. cbn [fst snd].
  destruct (Nat.eqb_spec (Nat.min 8 (ncols df) - 1) 7) as [E | _]; [lia | eauto].
Qed.

(** X8. On a rectangular sheet the outcome of the transform is decided in
    this order: IndexError when there are fewer than four rows; else
    KeyError, on a word that is no month of the table, when the date
    pattern matched with such a word; else ValueError when the sheet has
    fewer than eight columns; else the table. It raises nothing else. *)
Theorem transform_outcome df :
  rectangular df ->
  match transform_ingresos_detallado_data df with
  | Ok out =>
      (4 <= List.length (rows df))%nat /\ (8 <= ncols df)%nat
  | Raise (IndexError _) => (List.length (rows df) < 4)%nat
  | Raise (KeyError key) =>
      (4 <= List.length (rows df))%nat /\ ~ In key (map fst month_map)
  | Raise (ValueError _) =>
      (4 <= List.length (rows df))%nat /\ (ncols df < 8)%nat
  | Raise _ => False
  end.
Proof.
  intros Hrect.
  destruct (Nat.lt_ge_cases (List.length (rows df)) 4) as [Hs | Hl].
  - now rewrite transform_short_sheet.
  - unfold transform_ingresos_detallado_data, date_range_str, iloc_row, bind.
    destruct (nth_error (rows df) 3) as [hdr |] eqn:N;
      [| apply nth_error_None in N; lia].
    destruct (parse_date _) as [[f c] | e] eqn:P.
    + cbn [fst snd].
      destruct (Nat.lt_ge_cases (ncols df) 8) as [Hn | Hw].
      * destruct (@table_narrow df 7 44 f c Hn) as [msg ->]. auto.
      * destruct (@table_total df 7 44 f c Hrect Hw) as [t1 [-> _]].
        destruct (@table_total df 45 76 f c Hrect Hw) as [t2 [-> _]].
        auto.
    + apply parse_date_raise in P. destruct P as [key [-> Hk]]. auto.
Qed.

Lemma transform_outcome_witness :
  let df := {| ncols := 3; rows := repeat [CNaN; CStr "x"; CNaN] 5 |} in
  rectangular df
  /\ (exists msg, transform_ingresos_detallado_data df = Raise (ValueError msg))
  /\ (4 <= List.length (rows df))%nat /\ (ncols df < 8)%nat.
Proof.
  intros df.
  assert (Hrect : rectangular df) by (unfold rectangular; simpl; repeat constructor).
  pose proof (@transform_outcome df Hrect) as H.
  split; [exact Hrect |].
  destruct (transform_ingresos_detallado_data df)
    as [out | [msg | key | msg | msg | msg]] eqn:E;
    try (vm_compute in E; discriminate).
  split; [exists msg; reflexivity | exact H].
Defined.







Lemma parse_date_ok text f c :
  parse_date text = Ok (f, c) ->
  (f = CStr "" /\ c = CStr "")
  \/ (exists s q, f = CStr s /\ s <> "" /\ c = CInt q /\ 1 <= q <= 4).
Proof.
  unfold parse_date, bind.
  destruct (Re.search date_pat text) as [m |].
  - destruct (getitem month_map (PyStr.lower (Re.group m 2))) as [n |] eqn:G;
      [| discriminate].
    intros [= <- <-]. right. eexists. eexists.
    split; [reflexivity |]. split; [| split; [reflexivity |]].
    + destruct (PyStr.fmt_0d 2 (PyStr.int_digits (Re.group m 1))); discriminate.
    + apply quarter_range. eapply month_map_range; eauto.
  - intros [= <- <-]. now left.
Qed.

(** X10. The date columns are one pair of values for the whole table:
    either every row has the empty string in both Fecha and Cuarto, or
    every row has the same non-empty date and the same quarter, an
    integer from 1 to 4. *)
Theorem transform_date_all_or_nothing df out :
  transform_ingresos_detallado_data df = Ok out ->
  (forall r, In r out -> Fecha r = CStr "" /\ Cuarto r = CStr "")
  \/ (exists s q, s <> "" /\ 1 <= q <= 4
                  /\ forall r, In r out -> Fecha r = CStr s /\ Cuarto r = CInt q).
Proof.
  intros H. destruct (transform_rows _ H) as [text [f [c [_ [P D]]]]].
  rewrite Forall_forall in D.
  destruct (parse_date_ok _ P) as [[-> ->] | [s [q [-> [Hs [-> Hq]]]]]].
  - left. intros r Hr. destruct (D r Hr) as [F [C _]]. auto.
  - right. exists s, q. split; [exact Hs |]. split; [exact Hq |].
    intros r Hr. destruct (D r Hr) as [F [C _]]. auto.
Qed.

Lemma transform_date_all_or_nothing_witness :
  exists out,
    transform_ingresos_detallado_data (sample_sheet "al 30 de junio de 2024") = Ok out
    /\ ((forall r, In r out -> Fecha r = CStr "" /\ Cuarto r = CStr "")
        \/ (exists s q, s <> "" /\ 1 <= q <= 4
                        /\ forall r, In r out -> Fecha r = CStr s /\ Cuarto r = CInt q)).
Proof.
  destruct (transform_ingresos_detallado_data (sample_sheet "al 30 de junio de 2024"))
    as [out |] eqn:E; [| vm_compute in E; discriminate].
  exists out. split; [reflexivity |].
  apply (@transform_date_all_or_nothing _ out E).
Defined.

Lemma upper_not_lower c : PyStr.is_upper_az c = true -> PyStr.is_lower_az c = true -> False.
Proof.
  unfold PyStr.is_upper_az, PyStr.is_lower_az, PyStr.in_range.
  intros H1 H2. apply andb_prop in H1, H2.
  destruct H1 as [_ H1], H2 as [H2 _]. apply Z.leb_le in H1, H2. lia.
Qed.

(** X11. No row has both codes: ClavePrimaria and ClaveSecundaria are
    never both present, since one needs an upper-case first letter and the
    other a lower-case one. A ClavePrimaria that is present has exactly
    two characters, a ClaveSecundaria at least three. *)
Theorem transform_claves_exclusive df out r :
  transform_ingresos_detallado_data df = Ok out -> In r out ->
  ~ (ClavePrimaria r <> CNaN /\ ClaveSecundaria r <> CNaN)
  /\ (forall p, ClavePrimaria r = CStr p -> String.length p = 2%nat)
  /\ (forall p, ClaveSecundaria r = CStr p -> (3 <= String.length p)%nat).
Proof.
  intros Ht Hin.
  destruct (transform_rows _ Ht) as [text [f [c [_ [_ Hd]]]]].
  rewrite Forall_forall in Hd. destruct (Hd r Hin) as [_ [_ [Hp Hs]]].
  rewrite Hp, Hs. repeat split.
  - intros [H1 H2].
    destruct (str_extract_cases prim_pat (str_cell (Concepto r))) as [E | [p E]];
      [contradiction |].
    destruct (str_extract_cases sec_pat (str_cell (Concepto r))) as [E' | [p' E']];
      [contradiction |].
    apply extract_prim_iff in E. apply extract_sec_iff in E'.
    destruct E as [c1 [rest [E1 [U _]]]].
    destruct E' as [c2 [ds [rest' [E2 [L _]]]]].
    rewrite E1 in E2. injection E2 as -> _.
    exact (upper_not_lower _ U L).
  - intros p E. apply extract_prim_iff in E.
    destruct E as [c1 [rest [_ [_ ->]]]]. reflexivity.
  - intros p E. apply extract_sec_iff in E.
    destruct E as [c1 [ds [rest [_ [_ [Hne [_ ->]]]]]]].
    simpl. rewrite length_append_str. simpl.
    destruct ds; [congruence | simpl; lia].
Qed.

Lemma transform_claves_exclusive_witness :
  exists out r,
    transform_ingresos_detallado_data (sample_sheet "al 15 de marzo de 2024") = Ok out
    /\ In r out
    /\ ClavePrimaria r = CStr "A."
    /\ ~ (ClavePrimaria r <> CNaN /\ ClaveSecundaria r <> CNaN).
Proof.
  destruct (transform_ingresos_detallado_data (sample_sheet "al 15 de marzo de 2024"))
    as [out |] eqn:E; [| vm_compute in E; discriminate].
  assert (Hin : In (nth 0 out impuestos) out)
    by (vm_compute in E; injection E as <-; simpl; auto).
  exists out, (nth 0 out impuestos).
  split; [reflexivity |]. split; [exact Hin |].
  split; [vm_compute in E; injection E as <-; reflexivity |].
  apply (@transform_claves_exclusive _ out _ E Hin).
Defined.

(** ** Transform: which headers the date pattern finds *)

Section Phrase.
Import Re.

(** A greedy repetition, bounded or not, in front of something that cannot
    start with a character of the class takes the whole run. *)
Lemma rep_run (A : Type) k (cont : nat -> string -> option A) s' :
  (forall q c t, in_class k c = true -> cont q (String c t) = None) ->
  match s' with
  | String c _ => in_class k c = false
  | EmptyString => True
  end ->
  forall ds lo hi p,
    PyStr.all_chars (in_class k) ds = true ->
    within (String.length ds) hi ->
    rep k lo hi p (ds ++ s') cont
    = if (lo <=? String.length ds)%nat then cont (p + String.length ds)%nat s' else None.
Proof.
  intros Hrej Hs'. induction ds as [| c ds IH]; intros lo hi p Hall Hhi.
  - simpl String.length. rewrite Nat.add_0_r. simpl append.
    destruct s' as [| c t]; simpl.
    + now destruct lo.
    + rewrite Hs'. simpl. now destruct lo.
  - simpl in Hall. apply andb_prop in Hall. destruct Hall as [Hc Hall].
    assert (has_room hi = true) as Hroom
      by (destruct hi as [[| h] |]; simpl in *; auto; lia).
    assert (within (String.length ds) (option_map Nat.pred hi)) as Hhi'
      by (destruct hi as [[| h] |]; simpl in *; auto; lia).
    simpl. rewrite Hc, Hroom. simpl.
    rewrite (IH (Nat.pred lo) _ (S p) Hall Hhi').
    replace (S p + String.length ds)%nat with (p + S (String.length ds))%nat by lia.
    destruct lo as [| lo]; simpl.
    + destruct (cont (p + S (String.length ds))%nat s') eqn:E; auto.
    + destruct (lo <=? String.length ds)%nat; auto.
      now destruct (cont (p + S (String.length ds))%nat s').
Qed.

(** A repetition of exactly as many characters as the run has. *)
Lemma rep_exact (A : Type) k (cont : nat -> string -> option A) s' :
  forall ds p,
    PyStr.all_chars (in_class k) ds = true ->
    rep k (String.length ds) (Some (String.length ds)) p (ds ++ s') cont
    = cont (p + String.length ds)%nat s'.
Proof.
  induction ds as [| c ds IH]; intros p Hall.
  - simpl String.length. rewrite Nat.add_0_r. simpl append.
    destruct s' as [| c t]; simpl; [reflexivity |].
    now rewrite andb_false_r.
  - simpl in Hall. apply andb_prop in Hall. destruct Hall as [Hc Hall].
    simpl. rewrite Hc. simpl. rewrite (IH (S p) Hall).
    replace (S p + String.length ds)%nat with (p + S (String.length ds))%nat by lia.
    now destruct (cont (p + S (String.length ds))%nat s').
Qed.

Lemma run_lit (A : Type) x s' (cont : mstate -> option A) :
  forall p g,
    run (lit x) {| pos := p; rest := x ++ s'; groups := g |} cont
    = cont {| pos := p + String.length x; rest := s'; groups := g |}.
Proof.
  induction x as [| c x IH]; intros p g.
  - simpl. now rewrite Nat.add_0_r.
  - cbn [lit run rest pos groups append in_class]. rewrite Ascii.eqb_refl.
    rewrite IH. simpl String.length.
    now replace (S p + String.length x)%nat with (p + S (String.length x))%nat by lia.
Qed.

Lemma run_lit_mismatch (A : Type) c x c' t (cont : mstate -> option A) p g :
  Ascii.eqb c c' = false ->
  run (lit (String c x)) {| pos := p; rest := String c' t; groups := g |} cont = None.
Proof. intros H. cbn [lit run rest in_class]. now rewrite H. Qed.

Lemma run_seq (A : Type) r1 r2 st (cont : mstate -> option A) :
  run (Seq r1 r2) st cont = run r1 st (fun st' => run r2 st' cont).
Proof. reflexivity. Qed.

(** A captured run of a class in front of something that cannot start
    with a character of the class. *)
Lemma run_group_rep (A : Type) n k lo hi ds s' p g (cont : mstate -> option A) :
  PyStr.all_chars (in_class k) ds = true ->
  (lo <= String.length ds)%nat -> within (String.length ds) hi ->
  match s' with
  | String c _ => in_class k c = false
  | EmptyString => True
  end ->
  (forall q c t g', in_class k c = true ->
     cont {| pos := q; rest := String c t; groups := g' |} = None) ->
  run (Group n (Rep k lo hi)) {| pos := p; rest := ds ++ s'; groups := g |} cont
  = cont {| pos := p + String.length ds; rest := s'; groups := (n, ds) :: g |}.
Proof.
  intros Hall Hlo Hhi Hs' Hrej.
  cbn [run pos rest groups].
  rewrite rep_run with (s' := s'); auto.
  apply Nat.leb_le in Hlo. rewrite Hlo.
  replace (p + String.length ds - p)%nat with (String.length ds) by lia.
  now rewrite ReFacts.substring_prefix.
Qed.

Lemma run_group_exact (A : Type) n k len ds s' p g (cont : mstate -> option A) :
  PyStr.all_chars (in_class k) ds = true -> String.length ds = len ->
  run (Group n (Rep k len (Some len))) {| pos := p; rest := ds ++ s'; groups := g |} cont
  = cont {| pos := p + String.length ds; rest := s'; groups := (n, ds) :: g |}.
Proof.
  intros Hall <-.
  cbn [run pos rest groups].
  rewrite rep_exact; auto.
  replace (p + String.length ds - p)%nat with (String.length ds) by lia.
  now rewrite ReFacts.substring_prefix.
Qed.

Lemma space_not_digit : in_class Digit " " = false.
Proof. reflexivity. Qed.

Lemma space_not_word : in_class Word " " = false.
Proof. reflexivity. Qed.

Lemma lit_rejects (A : Type) k c x tail (cont : mstate -> option A) :
  in_class k c = false ->
  forall q c' t g', in_class k c' = true ->
    run (Seq (lit (String c x)) tail) {| pos := q; rest := String c' t; groups := g' |} cont
    = None.
Proof.
  intros Hc q c' t g' Hc'. rewrite run_seq. apply run_lit_mismatch.
  destruct (Ascii.eqb_spec c c') as [<- |]; [congruence | reflexivity].
Qed.

(** The match of the date pattern at the start of the phrase. *)
Lemma date_pat_match d w y post p :
  PyStr.all_chars PyStr.is_digit d = true -> (1 <= String.length d <= 2)%nat ->
  PyStr.all_chars PyStr.is_word w = true -> (1 <= String.length w)%nat ->
  PyStr.all_chars PyStr.is_digit y = true -> String.length y = 4%nat ->
  match_at date_pat p ("al " ++ d ++ " de " ++ w ++ " de " ++ y ++ post)
  = Some [(3%nat, y); (2%nat, w); (1%nat, d)].
Proof.
  intros Hd Ld Hw Lw Hy Ly.
  unfold match_at, date_pat, seqs.
  rewrite run_seq, run_lit. cbv beta.
  rewrite run_seq, run_group_rep with (ds := d) (s' := " de " ++ w ++ " de " ++ y ++ post);
    auto; try (simpl; lia); try exact space_not_digit;
    [| apply lit_rejects; exact space_not_digit].
  rewrite run_seq, run_lit. cbv beta.
  rewrite run_seq, run_group_rep with (ds := w) (s' := " de " ++ y ++ post);
    auto; try (simpl; lia); try exact space_not_word;
    [| apply lit_rejects; exact space_not_word].
  rewrite run_seq, run_lit. cbv beta.
  rewrite run_seq, run_group_exact with (ds := y) (s' := post); auto.
Qed.

(** A match somewhere in the subject is found by the search, possibly
    after an earlier one. *)
Lemma search_from_complete r s m : forall pre p,
  match_at r (p + String.length pre) s = Some m ->
  exists m', search_from r p (pre ++ s) = Some m'.
Proof.
  induction pre as [| c pre IH]; intros p H.
  - simpl in H. rewrite Nat.add_0_r in H. simpl append.
    destruct s; simpl; rewrite H; eauto.
  - simpl append. simpl search_from.
    destruct (match_at r p (String c (pre ++ s))) as [m0 |]; [eauto |].
    apply IH. simpl in H. now rewrite <- plus_n_Sm in H.
Qed.

End Phrase.

Lemma parse_date_of text d w y :
  Re.search date_pat text = Some [(3%nat, y); (2%nat, w); (1%nat, d)] ->
  parse_date text = date_of d w y.
Proof. intros H. unfold parse_date, date_of, bind. now rewrite H. Qed.

(** X12. A header that holds, anywhere, the words "al", one or two digits,
    "de", a word, "de" and four digits, separated by single spaces, is
    matched by the date pattern: the empty fallback is not taken. *)
Theorem parse_date_phrase_found pre d w y post :
  PyStr.all_chars PyStr.is_digit d = true -> (1 <= String.length d <= 2)%nat ->
  PyStr.all_chars PyStr.is_word w = true -> (1 <= String.length w)%nat ->
  PyStr.all_chars PyStr.is_digit y = true -> String.length y = 4%nat ->
  let text := pre ++ "al " ++ d ++ " de " ++ w ++ " de " ++ y ++ post in
  (exists m, Re.search date_pat text = Some m)
  /\ parse_date text <> Ok (CStr "", CStr "").
Proof.
  intros Hd Ld Hw Lw Hy Ly text.
  destruct (@search_from_complete date_pat
              ("al " ++ d ++ " de " ++ w ++ " de " ++ y ++ post)
              [(3%nat, y); (2%nat, w); (1%nat, d)] pre 0%nat) as [m Hm].
  { now apply date_pat_match. }
  split; [now exists m |].
  unfold parse_date, bind. fold text in Hm. unfold Re.search. rewrite Hm.
  destruct (getitem month_map (PyStr.lower (Re.group m 2))); discriminate.
Qed.

Lemma parse_date_phrase_found_witness :
  parse_date "Periodo del 1 de enero al 30 de Septiembre de 2023 (pesos)"
  <> Ok (CStr "", CStr "").
Proof.
  apply (@parse_date_phrase_found "Periodo del 1 de enero " "30" "Septiembre" "2023"
           " (pesos)"); try reflexivity; simpl; lia.
Defined.

Lemma lit_no_prefix (A : Type) x tail (cont : Re.mstate -> option A) :
  forall s p g,
    prefix x s = false ->
    Re.run (Re.Seq (Re.lit x) tail) {| Re.pos := p; Re.rest := s; Re.groups := g |} cont
    = None.
Proof.
  induction x as [| c x IH]; intros s p g H.
  - destruct s; discriminate.
  - destruct s as [| c' s]; [reflexivity |].
    simpl in H. cbn [Re.lit Re.run Re.rest Re.pos Re.groups Re.in_class].
    destruct (ascii_dec c c') as [<- | Hne].
    + rewrite Ascii.eqb_refl. apply (IH s (S p) g H).
    + destruct (Ascii.eqb_spec c c'); [contradiction | reflexivity].
Qed.

Lemma search_from_skip r x tail s m :
  r = Re.Seq (Re.lit x) tail ->
  forall pre p,
    no_start x pre s = true ->
    Re.match_at r (p + String.length pre) s = Some m ->
    Re.search_from r p (pre ++ s) = Some m.
Proof.
  intros ->. induction pre as [| c pre IH]; intros p Hn H.
  - simpl in H. rewrite Nat.add_0_r in H. simpl append.
    destruct s; simpl; now rewrite H.
  - simpl in Hn. apply andb_prop in Hn. destruct Hn as [Hp Hn].
    apply negb_true_iff in Hp.
    simpl append. simpl Re.search_from.
    unfold Re.match_at at 1. rewrite lit_no_prefix by exact Hp.
    apply IH; auto. simpl in H. now rewrite <- plus_n_Sm in H.
Qed.

(** X13. When the phrase "al D de W de Y" is the first place in the header
    where "al " occurs, the date is read from it: the day and the year as
    numbers, the month by looking up W in lower case, so "Marzo" and
    "MARZO" are months too. The result is the date D/M/Y with day and
    month padded to two digits and the quarter of the month, or KeyError
    on the lower-case word when it is no month. *)
Theorem parse_date_first_phrase pre d w y post :
  PyStr.all_chars PyStr.is_digit d = true -> (1 <= String.length d <= 2)%nat ->
  PyStr.all_chars PyStr.is_word w = true -> (1 <= String.length w)%nat ->
  PyStr.all_chars PyStr.is_digit y = true -> String.length y = 4%nat ->
  no_start "al " pre ("al " ++ d ++ " de " ++ w ++ " de " ++ y ++ post) = true ->
  parse_date (pre ++ "al " ++ d ++ " de " ++ w ++ " de " ++ y ++ post) = date_of d w y.
Proof.
  intros Hd Ld Hw Lw Hy Ly Hn.
  apply parse_date_of. unfold Re.search.
  apply (@search_from_skip date_pat "al " _ _ _ eq_refl pre 0%nat Hn).
  now apply date_pat_match.
Qed.

Lemma parse_date_first_phrase_witness :
  parse_date "Del 1 de enero al 31 de MARZO de 2024"
  = Ok (CStr "31/03/2024", CInt 1).
Proof.
  apply (@parse_date_first_phrase "Del 1 de enero " "31" "MARZO" "2024" "");
    try reflexivity; simpl; lia.
Defined.

(** ** Surrogate key: range and collisions *)

Lemma u64_in64 x : in64 (PyHash.u64 x).
Proof.
  unfold in64, PyHash.u64. rewrite Z.land_ones by lia.
  apply Z.mod_pos_bound. lia.
Qed.

Lemma lxor_in64 a b : in64 a -> in64 b -> in64 (Z.lxor a b).
Proof.
  unfold in64. intros [Ha1 Ha2] [Hb1 Hb2].
  assert (0 <= Z.lxor a b) as Hn by (apply Z.lxor_nonneg; tauto).
  split; [exact Hn |].
  destruct (Z.eq_dec (Z.lxor a b) 0) as [-> | Hz]; [lia |].
  apply Z.log2_lt_pow2; [lia |].
  pose proof (Z.log2_lxor a b Ha1 Hb1) as Hl.
  assert (Z.log2 a < 64) as La.
  { destruct (Z.eq_dec a 0) as [-> | ?]; [simpl; lia | apply Z.log2_lt_pow2; lia]. }
  assert (Z.log2 b < 64) as Lb.
  { destruct (Z.eq_dec b 0) as [-> | ?]; [simpl; lia | apply Z.log2_lt_pow2; lia]. }
  lia.
Qed.

Lemma rotl_in64 x b : in64 (PyHash.rotl x b).
Proof. unfold PyHash.rotl. apply u64_in64. Qed.

Lemma half_round_in64 a b c d s t :
  match PyHash.half_round a b c d s t with
  | (a', b', c', d') => in64 a' /\ in64 b' /\ in64 c' /\ in64 d'
  end.
Proof.
  unfold PyHash.half_round. cbv zeta.
  repeat split; try apply rotl_in64; try apply u64_in64;
    apply lxor_in64; auto using rotl_in64, u64_in64.
Qed.

Lemma single_round_in64 v :
  match PyHash.single_round v with
  | (v0, v1, v2, v3) => in64 v0 /\ in64 v1 /\ in64 v2 /\ in64 v3
  end.
Proof.
  unfold PyHash.single_round. destruct v as [[[v0 v1] v2] v3].
  destruct (PyHash.half_round v0 v1 v2 v3 13 16) as [[[a b] c] d].
  pose proof (half_round_in64 c b a d 17 21) as H.
  destruct (PyHash.half_round c b a d 17 21) as [[[a' b'] c'] d'].
  tauto.
Qed.

Lemma siphash13_in64 k0 k1 src : in64 (PyHash.siphash13 k0 k1 src).
Proof.
  unfold PyHash.siphash13. cbv zeta.
  destruct (PyHash.blocks _ src) as [v tail].
  destruct (PyHash.absorb v _) as [[[v0 v1] v2] v3].
  set (u := PyHash.single_round (PyHash.single_round (v0, v1, Z.lxor v2 255, v3))).
  pose proof (single_round_in64 u) as H.
  destruct (PyHash.single_round u) as [[[a b] c] d].
  destruct H as [Ha [Hb [Hc Hd]]].
  apply lxor_in64; apply lxor_in64; assumption.
Qed.

(** The built-in hash is a signed 64-bit number, and never -1. *)
Lemma hash_range k s : - 2 ^ 63 <= PyHash.hash k s < 2 ^ 63 /\ PyHash.hash k s <> -1.
Proof.
  unfold PyHash.hash. destruct s as [| c s]; [lia |].
  pose proof (siphash13_in64 (PyHash.k0 k) (PyHash.k1 k) (PyHash.bytes_of (String c s))) as H.
  unfold in64 in H. unfold PyHash.to_signed.
  set (x := PyHash.siphash13 _ _ _) in *.
  destruct (x <? 2 ^ 63) eqn:E.
  - apply Z.ltb_lt in E. destruct (Z.eqb_spec x (-1)); lia.
  - apply Z.ltb_ge in E. destruct (Z.eqb_spec (x - 2 ^ 64) (-1)); lia.
Qed.

(** X14. Whatever the secret of the process, every id denotes an integer
    between 0 and 2^63. *)
Theorem generate_surrogate_key_range k df kr :
  In kr (generate_surrogate_key k df) ->
  exists n, decimal_value (id kr) = Some n /\ 0 <= n <= 2 ^ 63.
Proof.
  unfold generate_surrogate_key. intros H.
  apply in_map_iff in H. destruct H as [r [<- _]]. cbn [id]. unfold key_of.
  eexists. split; [apply str_int_value |].
  pose proof (hash_range k (key_text r)) as [H _]. lia.
Qed.

Lemma generate_surrogate_key_range_witness :
  exists n,
    decimal_value (id {| data := impuestos; id := "2962773747293235712" |}) = Some n
    /\ 0 <= n <= 2 ^ 63.
Proof.
  apply (@generate_surrogate_key_range (PyHash.secret_of_seed 2) [impuestos]).
  vm_compute. auto.
Defined.

(** X15. The key text has no separators, so different business keys can
    share an id whatever the hash: text moved from the end of Concepto to
    the start of Fecha gives the same id, and so do a missing Concepto and
    the text "nan". *)
Theorem generate_surrogate_key_collisions k r r' a b q :
  map id (generate_surrogate_key k [with_key_fields r (CStr (a ++ b)) (CStr "") q])
  = map id (generate_surrogate_key k [with_key_fields r' (CStr a) (CStr b) q])
  /\ map id (generate_surrogate_key k [with_key_fields r CNaN (CStr b) q])
     = map id (generate_surrogate_key k [with_key_fields r' (CStr "nan") (CStr b) q]).
Proof.
  unfold generate_surrogate_key, key_text.
  cbn [map id Concepto Fecha Cuarto with_key_fields str_cell].
  split; [| reflexivity].
  do 2 f_equal. rewrite append_assoc_str. reflexivity.
Qed.

(** X16. Within the table of one sheet the id depends on Concepto alone:
    two rows whose Concepto has the same text get the same id, in
    particular any two rows whose Concepto cell is blank. *)
Theorem transform_then_keys_collide k df out kr1 kr2 :
  transform_ingresos_detallado_data df = Ok out ->
  In kr1 (generate_surrogate_key k out) ->
  In kr2 (generate_surrogate_key k out) ->
  str_cell (Concepto (data kr1)) = str_cell (Concepto (data kr2)) ->
  id kr1 = id kr2.
Proof.
  intros Ht H1 H2 Hc.
  destruct (transform_rows _ Ht) as [text [f [c [_ [_ Hd]]]]].
  rewrite Forall_forall in Hd.
  unfold generate_surrogate_key in H1, H2.
  apply in_map_iff in H1, H2.
  destruct H1 as [r1 [<- Hr1]], H2 as [r2 [<- Hr2]].
  cbn [data id] in *. unfold key_text.
  destruct (Hd r1 Hr1) as [F1 [C1 _]]. destruct (Hd r2 Hr2) as [F2 [C2 _]].
  now rewrite Hc, F1, F2, C1, C2.
Qed.

Lemma transform_then_keys_collide_witness :
  exists out,
    transform_ingresos_detallado_data sheet_with_blanks = Ok out
    /\ let ks := generate_surrogate_key (PyHash.secret_of_seed 0) out in
       let d := {| data := impuestos; id := "" |} in
       Concepto (data (nth 3 ks d)) = CNaN
       /\ Concepto (data (nth 5 ks d)) = CNaN
       /\ id (nth 3 ks d) = id (nth 5 ks d).
Proof.
  destruct (transform_ingresos_detallado_data sheet_with_blanks) as [out |] eqn:E;
    [| vm_compute in E; discriminate].
  exists out. split; [reflexivity |].
  intros ks d.
  pose proof E as E'. vm_compute in E'. injection E' as E'.
  assert (C3 : Concepto (data (nth 3 ks d)) = CNaN) by (subst ks out; reflexivity).
  assert (C5 : Concepto (data (nth 5 ks d)) = CNaN) by (subst ks out; reflexivity).
  split; [exact C3 |]. split; [exact C5 |].
  apply (@transform_then_keys_collide (PyHash.secret_of_seed 0) _ out _ _ E).
  - apply nth_In. subst ks out. simpl. lia.
  - apply nth_In. subst ks out. simpl. lia.
  - now rewrite C3, C5.
Defined.

(** ** Load: when the loaders go through, and what they leave *)

Module LoadFacts.
Import Sql.


Lemma put_members r rel t :
  pk_unique rel ->
  (In t (put r rel) <-> t = r \/ (In t rel /\ id t <> id r)).
Proof.
  intros Hpk. split.
  - unfold pk_unique, ids in Hpk.
    induction rel as [| u rel IH]; simpl.
    + intros [<- | []]. now left.
    + inversion Hpk as [| ? ? Hnot Hrest]; subst.
      destruct (String.eqb_spec (id u) (id r)) as [E | Hne].
      * rewrite (SqlFacts.do_update_same _ _ E).
        intros [<- | Hin]; [now left |].
        right. split; [now right |].
        intros E'. apply Hnot. rewrite E, <- E'. now apply in_map.
      * intros [<- | Hin]; [right; auto |].
        destruct (IH Hrest Hin) as [-> | [H1 H2]]; auto.
  - intros [-> | [Hin Hne]]; [apply SqlFacts.put_In | now apply SqlFacts.put_keeps].
Qed.

Lemma put_all_members rs : forall rel t,
  NoDup (ids rs) -> pk_unique rel ->
  (In t (put_all rs rel) <-> In t rs \/ (In t rel /\ ~ In (id t) (ids rs))).
Proof.
  unfold put_all.
  induction rs as [| r rs IH]; intros rel t Hnd Hpk; simpl.
  - tauto.
  - inversion Hnd as [| ? ? Hnot Hrest]; subst.
    rewrite (IH (put r rel) t Hrest (SqlFacts.put_pk r Hpk)).
    rewrite (put_members r t Hpk).
    split.
    + intros [H | [[-> | [H1 H2]] H3]]; auto.
      right. split; auto. intros [E | H]; auto.
    + intros [[<- | H] | [H1 H2]]; auto.
      right. split; [right; split; auto | auto].
Qed.

Section Storage.
Variable accepts : tuple -> bool.

Lemma upsert_rows_accepts rs : forall touched rel rel1,
  upsert_rows accepts rs touched rel = Ok rel1 -> forallb accepts rs = true.
Proof.
  induction rs as [| r rs IH]; intros touched rel rel1 H; simpl in *; auto.
  destruct (accepts r); [| discriminate]. simpl in *.
  destruct (existsb (String.eqb (id r)) touched); [discriminate |].
  eauto.
Qed.

Lemma upsert_rows_complete rs : forall touched rel,
  forallb accepts rs = true -> NoDup (ids rs) ->
  (forall i, In i (ids rs) -> ~ In i touched) ->
  upsert_rows accepts rs touched rel = Ok (put_all rs rel).
Proof.
  induction rs as [| r rs IH]; intros touched rel Ha Hnd Hdis; simpl; auto.
  simpl in Ha. apply andb_prop in Ha. destruct Ha as [Hr Ha]. rewrite Hr. simpl.
  inversion Hnd as [| ? ? Hnot Hrest]; subst.
  destruct (existsb (String.eqb (id r)) touched) eqn:E.
  - apply existsb_exists in E. destruct E as [i [Hi E]].
    apply String.eqb_eq in E. subst i.
    exfalso. apply (Hdis (id r)); simpl; auto.
  - apply IH; auto.
    intros i Hi [<- | Hin]; [contradiction |].
    apply (Hdis i); simpl; auto.
Qed.

Lemma single_load_ok_iff df db :
  snd (single_load accepts df db) = Ok tt <-> loadable accepts df.
Proof.
  unfold loadable, single_load, with_connection, and_then, execute, commit, upsert,
    create_all.
  destruct df as [| r rs]; cbn [work committed reraise snd].
  - split; [discriminate | intros [H _]; congruence].
  - destruct (upsert_rows accepts (r :: rs) [] db) as [rel1 | e] eqn:U;
      cbn [work committed reraise snd].
    + split; [intros _ | reflexivity].
      split; [discriminate |]. split.
      * eapply upsert_rows_accepts; eauto.
      * eapply SqlFacts.upsert_rows_ok; eauto.
    + split; [discriminate |].
      intros [_ [Ha Hnd]].
      rewrite upsert_rows_complete in U; auto. discriminate.
Qed.

Lemma single_load_ok df db :
  snd (single_load accepts df db) = Ok tt ->
  fst (single_load accepts df db) = put_all df db /\ NoDup (ids df).
Proof.
  intros H.
  destruct (SqlFacts.single_load_cases accepts df db) as [[e E] | [_ [Hnd [E _]]]];
    rewrite E in *; simpl in *; [discriminate | auto].
Qed.

(** X17. The upsert goes through exactly for a row set with at least one
    row, every row accepted by the storage layer and no key twice. In
    every other case it raises RuntimeError with the text "Single load
    (upsert) failed: " in front of the cause, and the table is as it was. *)
Theorem single_load_outcome df db :
  (snd (single_load accepts df db) = Ok tt <-> loadable accepts df)
  /\ forall e, snd (single_load accepts df db) = Raise e ->
       fst (single_load accepts df db) = db
       /\ exists cause, e = RuntimeError ("Single load (upsert) failed: " ++ cause).
Proof.
  split; [apply single_load_ok_iff |].
  unfold single_load, with_connection, and_then, execute, commit, upsert, create_all.
  destruct df as [| r rs]; cbn [work committed reraise fst snd].
  - intros e [= <-]. split; [reflexivity | eexists; reflexivity].
  - destruct (upsert_rows accepts (r :: rs) [] db) as [rel1 | e'];
      cbn [work committed reraise fst snd].
    + discriminate.
    + intros e [= <-]. split; [reflexivity | eexists; reflexivity].
Qed.

(** X18. After an upsert that went through, the table holds the input
    rows and, of the earlier records, exactly those whose key is not in
    the input, unchanged; nothing else. *)
Theorem single_load_merge df db :
  pk_unique db ->
  snd (single_load accepts df db) = Ok tt ->
  forall t, In t (fst (single_load accepts df db))
            <-> In t df \/ (In t db /\ ~ In (id t) (ids df)).
Proof.
  intros Hpk Hok t.
  destruct (single_load_ok _ _ Hok) as [-> Hnd].
  now apply put_all_members.
Qed.

(** X19. Two upserts in a row: the table holds the rows of the second, the
    rows of the first whose key the second does not have, and the earlier
    records whose key neither has. The latest write of a key wins. *)
Theorem single_load_latest_wins df1 df2 db :
  pk_unique db ->
  let db1 := fst (single_load accepts df1 db) in
  snd (single_load accepts df1 db) = Ok tt ->
  snd (single_load accepts df2 db1) = Ok tt ->
  forall t, In t (fst (single_load accepts df2 db1))
            <-> In t df2
                \/ (In t df1 /\ ~ In (id t) (ids df2))
                \/ (In t db /\ ~ In (id t) (ids df1) /\ ~ In (id t) (ids df2)).
Proof.
  intros Hpk db1 H1 H2 t. subst db1.
  destruct (single_load_ok _ _ H2) as [-> Hnd2].
  destruct (single_load_ok _ _ H1) as [E1 Hnd1]. rewrite E1.
  destruct (@SqlFacts.put_all_spec df1 db Hnd1 Hpk) as [Hpk1 _].
  rewrite (@put_all_members df2 _ t Hnd2 Hpk1).
  rewrite (@put_all_members df1 _ t Hnd1 Hpk).
  tauto.
Qed.









End Storage.

Lemma sample_db_pk : pk_unique [rec "11" "A. Impuestos" 1; rec "22" "B. Cuotas" 2].
Proof. unfold pk_unique. simpl. repeat constructor; simpl; intuition discriminate. Qed.

Lemma single_load_merge_witness :
  let db := [rec "11" "A. Impuestos" 1; rec "22" "B. Cuotas" 2] in
  let df := [rec "11" "A. Impuestos" 5; rec "33" "C. Contribuciones" 3] in
  In (rec "22" "B. Cuotas" 2) (fst (single_load (fun _ => true) df db))
  /\ ~ In (rec "11" "A. Impuestos" 1) (fst (single_load (fun _ => true) df db)).
Proof.
  intros db df.
  assert (Hok : snd (single_load (fun _ => true) df db) = Ok tt) by reflexivity.
  split.
  - apply (@single_load_merge (fun _ => true) df db sample_db_pk Hok).
    right. split; [simpl; auto |]. simpl. intuition discriminate.
  - intros H. apply (@single_load_merge (fun _ => true) df db sample_db_pk Hok) in H.
    destruct H as [[H | [H | []]] | [_ H]]; try discriminate.
    apply H. simpl. auto.
Defined.

Lemma single_load_latest_wins_witness :
  let db := [rec "11" "A. Impuestos" 1; rec "22" "B. Cuotas" 2] in
  let df1 := [rec "11" "A. Impuestos" 5; rec "33" "C. Contribuciones" 3] in
  let df2 := [rec "11" "A. Impuestos" 9] in
  let db2 := fst (single_load (fun _ => true) df2 (fst (single_load (fun _ => true) df1 db))) in
  In (rec "11" "A. Impuestos" 9) db2 /\ In (rec "33" "C. Contribuciones" 3) db2
  /\ In (rec "22" "B. Cuotas" 2) db2.
Proof.
  intros db df1 df2 db2.
  pose proof (@single_load_latest_wins (fun _ => true) df1 df2 db sample_db_pk
                eq_refl eq_refl) as H.
  repeat split; apply H.
  - left. simpl. auto.
  - right. left. split; [simpl; auto |]. simpl. intuition discriminate.
  - right. right. split; [simpl; auto |]. simpl. intuition discriminate.
Defined.


End LoadFacts.

(** ** Load: the dispatcher *)

(** X23. A load method other than "insert", "upsert" or "overwrite",
    compared letter by letter, raises ValueError; no operation of the
    client is called and the table is as it was. *)
Theorem load_invalid_method df postgresql_client load_method db :
  ~ In load_method ["insert"; "upsert"; "overwrite"] ->
  load df postgresql_client load_method db
  = (db, Raise (ValueError "Invalid load method: choose from [insert, upsert, overwrite]")).
Proof.
  intros H. unfold load. simpl in H.
  destruct (String.eqb_spec load_method "insert"); [subst; tauto |].
  destruct (String.eqb_spec load_method "upsert"); [subst; tauto |].
  destruct (String.eqb_spec load_method "overwrite"); [subst; tauto |].
  reflexivity.
Qed.

Lemma load_invalid_method_witness :
  load [Sql.rec "11" "A. Impuestos" 5]
       {| client_insert := Sql.bulk_load (fun _ => true);
          client_upsert := Sql.single_load (fun _ => true);
          client_overwrite := Sql.bulk_load (fun _ => true) |}
       "Upsert" [Sql.rec "22" "B. Cuotas" 2]
  = ([Sql.rec "22" "B. Cuotas" 2],
     Raise (ValueError "Invalid load method: choose from [insert, upsert, overwrite]")).
Proof.
  apply load_invalid_method. simpl. intuition discriminate.
Defined.
